(** * rawmap.Loader: the Don't Starve Together map loader

    A shallow embedding of [src/rawmap.py].  The module reads one line of a
    brace-delimited save file, reformats it into indented lines
    ([_raw_map_to_list]) and reads those lines back recursively into lists
    and dicts ([_map_reader]), sharing one line counter ([self.counter]).

    Conventions of the embedding:
    - a Python [str] is a [string]; its characters are 8-bit [ascii] values,
      read as the code points U+0000..U+00FF;
    - a Python [int] is a [Z], a [float] a binary64 [spec_float], a [dict]
      a [gmap] (the module does not rely on the order of its items);
    - Python exceptions are the non-[Ok] constructors of [result];
    - [self.counter] and the text written by [print] are threaded through a
      state-and-error monad [M]; the state also carries a ghost log [reads]
      of the indices at which [self.parsed_map] was subscripted;
    - the two [while] loops and the recursion of [_map_reader] are driven by
      fuel; [Loader] supplies enough of it ([map_reader_fuel_enough]);
    - [Loader] starts from the line returned by [readline]; the optional
      [.txt] copy of the reformatted text and the interpreter's limit on
      the depth of recursion are left out. *)

From Stdlib Require Import ZArith String Ascii List Lia.
From Stdlib Require Import DecimalString DecimalZ DecimalPos DecimalFacts.
From Stdlib Require Import Floats.SpecFloat.
From stdpp Require Import gmap strings list.

Set Warnings "-register-all".
#[local] Open Scope string_scope.
#[local] Open Scope list_scope.

(** ** Characters used by the dialect *)

Definition ch_newline : ascii := "010"%char.
Definition ch_tab : ascii := "009"%char.
Definition ch_quote : ascii := "034"%char.
Definition ch_lbrace : ascii := "{"%char.
Definition ch_rbrace : ascii := "}"%char.
Definition ch_comma : ascii := ","%char.
Definition ch_equals : ascii := "="%char.
Definition ch_dot : ascii := "."%char.

(** The one-character string [c]. *)
Definition str1 (c : ascii) : string := String c "".

(** ** Python string built-ins used by the module *)

Module Py.

(** [str.isspace] on one character, for code points below 256. *)
Definition isspace (c : ascii) : bool :=
  let n := nat_of_ascii c in
  (Nat.leb 9 n && Nat.leb n 13) || (Nat.leb 28 n && Nat.leb n 32)
  || Nat.eqb n 133 || Nat.eqb n 160.

(** [c in s] for a one-character [c]. *)
Fixpoint contains (c : ascii) (s : string) : bool :=
  match s with
  | EmptyString => false
  | String a r => Ascii.eqb a c || contains c r
  end.

(** [s.lstrip()] generalised to a predicate on characters. *)
Fixpoint lstrip_by (p : ascii -> bool) (s : string) : string :=
  match s with
  | EmptyString => EmptyString
  | String a r => if p a then lstrip_by p r else s
  end.

(** [s.rstrip(...)] generalised to a predicate on characters. *)
Fixpoint rstrip_by (p : ascii -> bool) (s : string) : string :=
  match s with
  | EmptyString => EmptyString
  | String a r =>
      match rstrip_by p r with
      | EmptyString => if p a then EmptyString else str1 a
      | r' => String a r'
      end
  end.

(** [s.strip()]. *)
Definition strip (s : string) : string := rstrip_by isspace (lstrip_by isspace s).

(** [s.rstrip(",")]. *)
Definition rstrip_comma (s : string) : string := rstrip_by (Ascii.eqb ch_comma) s.

(** [s.split(sep)] for a one-character separator: never the empty list. *)
Fixpoint split (sep : ascii) (s : string) : list string :=
  match s with
  | EmptyString => [EmptyString]
  | String a r =>
      if Ascii.eqb a sep then EmptyString :: split sep r
      else match split sep r with
           | h :: t => String a h :: t
           | [] => [str1 a]
           end
  end.

(** [sep.join(parts)] for a one-character separator. *)
Fixpoint join (sep : ascii) (parts : list string) : string :=
  match parts with
  | [] => EmptyString
  | [p] => p
  | p :: rest => p +:+ String sep (join sep rest)
  end.

(** [s[1:-1]]. *)
Fixpoint drop_last (s : string) : string :=
  match s with
  | EmptyString => EmptyString
  | String a r => match r with EmptyString => EmptyString | _ => String a (drop_last r) end
  end.

Definition slice_1_m1 (s : string) : string :=
  match s with
  | EmptyString => EmptyString
  | String _ r => drop_last r
  end.

(** [c * n] for a one-character string and an [int] count: empty when the
    count is not positive. *)
Definition repeat_char (c : ascii) (n : Z) : string :=
  string_of_list_ascii (List.repeat c (Z.to_nat n)).

(** *** [int(s)] *)

(** The whitespace that [int] and [float] skip around a number: the
    characters of [isspace] other than the separators U+001C to U+001F. *)
Definition num_space (c : ascii) : bool :=
  let n := nat_of_ascii c in
  (Nat.leb 9 n && Nat.leb n 13) || Nat.eqb n 32 || Nat.eqb n 133 || Nat.eqb n 160.

Definition num_strip (s : string) : string :=
  rstrip_by num_space (lstrip_by num_space s).

Definition is_digit (c : ascii) : bool :=
  let n := nat_of_ascii c in Nat.leb 48 n && Nat.leb n 57.

Definition digit_val (c : ascii) : Z := (Z.of_nat (nat_of_ascii c) - 48)%Z.

(** The digits after a first one: digits, each optionally preceded by one
    underscore. *)
Fixpoint int_digits (acc : Z) (s : string) : option Z :=
  match s with
  | EmptyString => Some acc
  | String c r =>
      if is_digit c then int_digits (10 * acc + digit_val c)%Z r
      else if Ascii.eqb c "_" then
        match r with
        | String d r' =>
            if is_digit d then int_digits (10 * acc + digit_val d)%Z r' else None
        | EmptyString => None
        end
      else None
  end.

Definition unsigned_int (s : string) : option Z :=
  match s with
  | String d r => if is_digit d then int_digits (digit_val d) r else None
  | EmptyString => None
  end.

(** [int(s)], base ten: surrounding whitespace, an optional sign, then
    digits with single underscores between them.  [None] is [ValueError].
    (The bound that recent interpreters put on the number of digits is not
    modelled.) *)
Definition int (s : string) : option Z :=
  match num_strip s with
  | EmptyString => None
  | String c r =>
      if Ascii.eqb c "-" then Z.opp <$> unsigned_int r
      else if Ascii.eqb c "+" then unsigned_int r
      else unsigned_int (String c r)
  end.

(** [str(n)] for an [int]. *)
Definition str_int (n : Z) : string := NilZero.string_of_int (Z.to_int n).

(** [str(b)] for a [bool]. *)
Definition str_bool (b : bool) : string := if b then "True" else "False".

(** *** [float(s)] *)

Definition lower (c : ascii) : ascii :=
  let n := nat_of_ascii c in
  if Nat.leb 65 n && Nat.leb n 90 then ascii_of_nat (n + 32) else c.

Fixpoint lower_str (s : string) : string :=
  match s with
  | EmptyString => EmptyString
  | String c r => String (lower c) (lower_str r)
  end.

(** Underscores are accepted only between two digits, and dropped; [prev]
    is the character before [s]. *)
Fixpoint drop_underscores (prev : ascii) (s : string) : option string :=
  match s with
  | EmptyString => if Ascii.eqb prev "_" then None else Some EmptyString
  | String c r =>
      if Ascii.eqb c "_" then
        if is_digit prev then drop_underscores c r else None
      else if Ascii.eqb prev "_" && negb (is_digit c) then None
      else String c <$> drop_underscores c r
  end.

(** The leading digits of [s] and what follows them. *)
Fixpoint span_digits (s : string) : string * string :=
  match s with
  | EmptyString => (EmptyString, EmptyString)
  | String c r =>
      if is_digit c then let '(ds, rest) := span_digits r in (String c ds, rest)
      else (EmptyString, s)
  end.

Fixpoint digits_value (acc : Z) (ds : string) : Z :=
  match ds with
  | EmptyString => acc
  | String c r => digits_value (10 * acc + digit_val c)%Z r
  end.

(** The binary64 number nearest to [m * 10 ^ e10] (ties to even), negated
    when [neg].  A negative [e10] is a division: the quotient is taken
    with more than 64 bits and the remainder kept as a sticky last bit, so
    that the single rounding of [binary_normalize] is the correct one. *)
Definition of_decimal (neg : bool) (m e10 : Z) : spec_float :=
  if (0 <=? e10)%Z then
    binary_normalize 53 1024 (cond_Zopp neg (m * 10 ^ e10))%Z 0 neg
  else
    let d := (10 ^ (- e10))%Z in
    let s := (64 + Z.log2_up d)%Z in
    let n := (m * 2 ^ s)%Z in
    let sticky := if (n mod d =? 0)%Z then 0%Z else 1%Z in
    binary_normalize 53 1024 (cond_Zopp neg (2 * (n / d) + sticky))%Z (- s - 1)%Z neg.

Definition split_sign (s : string) : bool * string :=
  match s with
  | String c r =>
      if Ascii.eqb c "-" then (true, r)
      else if Ascii.eqb c "+" then (false, r) else (false, s)
  | EmptyString => (false, s)
  end.

(** What may follow the mantissa: nothing, or [e] with a signed, non-empty
    run of digits up to the end. *)
Definition exponent_part (s : string) : option Z :=
  match s with
  | EmptyString => Some 0%Z
  | String c r =>
      if Ascii.eqb (lower c) "e" then
        let '(neg, r1) := split_sign r in
        match span_digits r1 with
        | (String d ds, EmptyString) =>
            Some (cond_Zopp neg (digits_value 0 (String d ds)))
        | _ => None
        end
      else None
  end.

Definition decimal_literal (neg : bool) (s : string) : option spec_float :=
  let '(ip, r1) := span_digits s in
  let '(fp, r2) :=
    match r1 with
    | String c r => if Ascii.eqb c ch_dot then span_digits r else (EmptyString, r1)
    | EmptyString => (EmptyString, r1)
    end in
  match ip +:+ fp with
  | EmptyString => None
  | ds =>
      e10 ← exponent_part r2;
      Some (of_decimal neg (digits_value 0 ds) (e10 - Z.of_nat (String.length fp)))
  end.

Definition inf_or_nan (neg : bool) (s : string) : option spec_float :=
  let t := lower_str s in
  if String.eqb t "inf" || String.eqb t "infinity" then Some (S754_infinity neg)
  else if String.eqb t "nan" then Some S754_nan
  else None.

(** [float(s)]: surrounding whitespace, underscores between digits, an
    optional sign, then [inf], [infinity], [nan] or a decimal literal,
    rounded to binary64.  [None] is [ValueError]. *)
Definition float (s : string) : option spec_float :=
  t ← drop_underscores "000"%char (num_strip s);
  let '(neg, body) := split_sign t in
  match inf_or_nan neg body with
  | Some f => Some f
  | None => decimal_literal neg body
  end.

(** *** [str(x)] for a [float] *)

Definition spec_float_eqb (x y : spec_float) : bool :=
  match x, y with
  | S754_zero s, S754_zero t => Bool.eqb s t
  | S754_infinity s, S754_infinity t => Bool.eqb s t
  | S754_nan, S754_nan => true
  | S754_finite s m e, S754_finite t n f => Bool.eqb s t && Pos.eqb m n && Z.eqb e f
  | _, _ => false
  end.

Fixpoint str_take (n : nat) (s : string) : string :=
  match n, s with
  | S n, String c r => String c (str_take n r)
  | _, _ => EmptyString
  end.

Fixpoint str_drop (n : nat) (s : string) : string :=
  match n, s with
  | S n, String _ r => str_drop n r
  | _, _ => s
  end.

(** The digits [ds], read as [0.ds * 10 ^ decpt], the way [repr] lays
    them out: with an exponent when [decpt] is below -3 or above 16, the
    exponent having two digits at least; else in positional form, with
    [.0] after an integer. *)
Definition float_layout (ds : string) (decpt : Z) : string :=
  let n := Z.of_nat (String.length ds) in
  if (decpt <=? -4)%Z || (16 <? decpt)%Z then
    let e := (decpt - 1)%Z in
    let es := str_int (Z.abs e) in
    str_take 1 ds
    +:+ (if (1 <? n)%Z then String ch_dot (str_drop 1 ds) else EmptyString)
    +:+ "e" +:+ (if (e <? 0)%Z then "-" else "+")
    +:+ (if (Z.abs e <? 10)%Z then "0" else EmptyString) +:+ es
  else if (decpt <=? 0)%Z then
    "0." +:+ repeat_char "0" (- decpt) +:+ ds
  else if (n <=? decpt)%Z then
    ds +:+ repeat_char "0" (decpt - n) +:+ ".0"
  else
    str_take (Z.to_nat decpt) ds +:+ String ch_dot (str_drop (Z.to_nat decpt) ds).

(** [d] without its trailing zeros, and their number. *)
Fixpoint drop_zeros (fuel : nat) (d : Z) (k : Z) : Z * Z :=
  match fuel with
  | O => (d, k)
  | S fuel => if (d mod 10 =? 0)%Z then drop_zeros fuel (d / 10)%Z (k + 1)%Z else (d, k)
  end.

(** The text of the decimal [d * 10 ^ scale], [d] positive. *)
Definition decimal_text (neg : bool) (d scale : Z) : string :=
  let '(d, scale) := drop_zeros 20 d scale in
  let ds := str_int d in
  (if neg then "-" else EmptyString)
  +:+ float_layout ds (Z.of_nat (String.length ds) + scale).

(** [num / den * 10 ^ (- scale)], rounded down, with the remainder and its
    divisor. *)
Definition scaled (num den scale : Z) : Z * Z * Z :=
  if (0 <=? scale)%Z then
    let d := (den * 10 ^ scale)%Z in ((num / d)%Z, (num mod d)%Z, d)
  else
    let n := (num * 10 ^ (- scale))%Z in ((n / den)%Z, (n mod den)%Z, den).

(** The position of the decimal point of [num / den]: the [k] with
    [10 ^ (k - 1) <= num / den < 10 ^ k]. *)
Definition decimal_point (num den : Z) : Z :=
  let k0 :=
    if (den <=? num)%Z then Z.of_nat (String.length (str_int (num / den)))
    else (2 - Z.of_nat (String.length (str_int (den / num))))%Z in
  let '(q, _, _) := scaled num den (k0 - 1) in
  if (q =? 0)%Z then (k0 - 1)%Z else if (10 <=? q)%Z then (k0 + 1)%Z else k0.

(** The decimals of [n] digits next to [num / den], the nearer first (the
    even one when both are as near). *)
Definition candidates (num den : Z) (n : Z) : list (Z * Z) :=
  let scale := (decimal_point num den - n)%Z in
  let '(lo, r, d) := scaled num den scale in
  if (r =? 0)%Z then [(lo, scale)]
  else
    let hi := (lo + 1)%Z in
    if (2 * r <? d)%Z then [(lo, scale); (hi, scale)]
    else if (d <? 2 * r)%Z then [(hi, scale); (lo, scale)]
    else if Z.even lo then [(lo, scale); (hi, scale)]
    else [(hi, scale); (lo, scale)].

(** The first text that [float] reads back as [x]. *)
Fixpoint first_read_back (x : spec_float) (texts : list string) : option string :=
  match texts with
  | [] => None
  | t :: rest =>
      match float t with
      | Some y => if spec_float_eqb x y then Some t else first_read_back x rest
      | None => first_read_back x rest
      end
  end.

(** The texts tried for [x = (-1)^neg * num / den], by number of digits,
    from 1 to 17. *)
Definition texts_to_try (neg : bool) (num den : Z) : list string :=
  flat_map
    (fun n => List.map (fun '(d, scale) => decimal_text neg d scale)
                (candidates num den (Z.of_nat n)))
    (seq 1 17).

(** [str(x)] (and [repr(x)]): for a finite number other than zero, the
    shortest decimal text that [float] reads back as [x], the nearest to
    [x] among those of that length.  [None] when no text of at most 17
    digits is read back as [x], which does not happen for a binary64. *)
Definition str_float (x : spec_float) : option string :=
  match x with
  | S754_zero s => Some (if s then "-0.0" else "0.0")
  | S754_infinity s => Some (if s then "-inf" else "inf")
  | S754_nan => Some "nan"
  | S754_finite s m e =>
      let '(num, den) :=
        if (0 <=? e)%Z then ((Zpos m * 2 ^ e)%Z, 1%Z) else (Zpos m, (2 ^ (- e))%Z) in
      first_read_back x (texts_to_try s num den)
  end.

End Py.

(** ** The loaded structure *)

(** What [change_data_type] and [_map_reader] return: Python [str], [bool],
    [int], [float], [list] and [dict] objects.  The empty token stays the
    empty [str]. *)
Inductive value : Type :=
| VStr (s : string)
| VBool (b : bool)
| VInt (n : Z)
| VFloat (f : spec_float)
| VList (items : list value)
| VDict (entries : gmap string value).

(** ** Results and the loader's state *)

(** [Ok] is a normal return; [IndexError] and [ValueError] are the two
    exceptions the module can raise; [OutOfFuel] is the embedding's own. *)
Inductive result (A : Type) : Type :=
| Ok (a : A)
| IndexError
| ValueError
| OutOfFuel.
Arguments Ok {A} a.
Arguments IndexError {A}.
Arguments ValueError {A}.
Arguments OutOfFuel {A}.

(** [counter] is [self.counter]; [stdout] holds the lines written by
    [print], oldest first; [reads] is the ghost log of subscripts used on
    [self.parsed_map], oldest first. *)
Record state : Type := mkState {
  counter : nat;
  reads : list nat;
  stdout : list string
}.

Definition M (A : Type) : Type := state -> result (A * state).

Definition ret {A} (a : A) : M A := fun st => Ok (a, st).

Definition bind {A B} (m : M A) (k : A -> M B) : M B :=
  fun st =>
    match m st with
    | Ok (a, st') => k a st'
    | IndexError => IndexError
    | ValueError => ValueError
    | OutOfFuel => OutOfFuel
    end.

Definition raise {A} (e : result (A * state)) : M A := fun _ => e.

(** A built-in that returns or raises [ValueError]. *)
Definition or_value_error {A} (o : option A) : M A :=
  fun st => match o with Some a => Ok (a, st) | None => ValueError end.

Definition print (line : string) : M unit :=
  fun st => Ok (tt, mkState (counter st) (reads st) (stdout st ++ [line])).

Definition get_counter : M nat := fun st => Ok (counter st, st).

Declare Scope loader_scope.
Delimit Scope loader_scope with loader.
Notation "'let!' x ':=' m 'in' k" := (bind m (fun x => k))
  (at level 10, x pattern, m at level 100, k at level 200) : loader_scope.
Notation "'do!' m 'in' k" := (bind m (fun _ => k))
  (at level 10, m at level 100, k at level 200) : loader_scope.
#[local] Open Scope loader_scope.

(** ** [_raw_map_to_list] *)

(** The loop variables of the preprocessing pass. *)
Record prep : Type := mkPrep {
  extended_map : string;
  indents : Z;
  in_quote : bool
}.

Definition prep_init : prep := mkPrep EmptyString 0 false.

Definition newline_indent (indents : Z) : string :=
  String ch_newline (Py.repeat_char ch_tab indents).

(** One iteration of [for ch in data]. *)
Definition prep_step (p : prep) (ch : ascii) : prep :=
  let '(out, ind) :=
    if Ascii.eqb ch ch_lbrace then
      (extended_map p +:+ str1 ch +:+ newline_indent (indents p + 1), (indents p + 1)%Z)
    else if Ascii.eqb ch ch_comma then
      (extended_map p +:+ str1 ch
         +:+ (if in_quote p then EmptyString else newline_indent (indents p)),
       indents p)
    else if Ascii.eqb ch ch_rbrace then
      (extended_map p +:+ newline_indent (indents p - 1) +:+ str1 ch, (indents p - 1)%Z)
    else
      (extended_map p +:+ str1 ch, indents p) in
  mkPrep out ind (if Ascii.eqb ch ch_quote then negb (in_quote p) else in_quote p).

Definition prep_run (p : prep) (data : string) : prep :=
  fold_left prep_step (list_ascii_of_string data) p.

(** The text that is split into lines (and written to the [.txt] file when
    asked for). *)
Definition extended_text (data : string) : string :=
  extended_map (prep_run prep_init data).

Definition _raw_map_to_list (data : string) : list string :=
  Py.split ch_newline (extended_text data).

(** ** [_map_reader] *)

(** [change_data_type]: [None] is the [ValueError] of [float] or [int]. *)
Definition change_data_type (data_string : string) : option value :=
  if String.eqb data_string EmptyString then Some (VStr EmptyString)
  else if String.eqb data_string "true" then Some (VBool true)
  else if String.eqb data_string "false" then Some (VBool false)
  else if Py.contains ch_quote data_string then Some (VStr data_string)
  else if Py.contains ch_dot data_string then VFloat <$> Py.float data_string
  else VInt <$> Py.int data_string.

(** What [get_next_line] makes of a line of [self.parsed_map]. *)
Definition trimmed (raw : string) : string := Py.rstrip_comma (Py.strip raw).

Definition unexpected_eof : string := "Unexpected end of file".

Definition unhandled_line (line : string) : string :=
  "Unhandled line in a dictionary like logical part: " +:+ line.

Definition found_at (n : nat) : string :=
  "It can be found at line number " +:+ Py.str_int (Z.of_nat n) +:+ ".".

Section Reader.

(** [self.parsed_map], fixed once [_raw_map_to_list] has returned. *)
Variable parsed_map : list string.

Definition get_next_line : M string :=
  fun st =>
    match parsed_map !! counter st with
    | None => IndexError
    | Some raw =>
        Ok (trimmed raw,
            mkState (S (counter st)) (reads st ++ [counter st]) (stdout st))
    end.

(** The recursive call [self._map_reader()] as seen from the loops. *)
Variable rec : M value.

(** The body of the first [while], up to the append to [return_data]. *)
Definition seq_item (line : string) (return_data : list value) (next_element : Z)
  : M (list value * Z) :=
  if Py.contains ch_lbrace line then
    let! (return_data, next_element) :=
      (if Py.contains ch_equals line then
         let data := Py.strip (hd EmptyString (Py.split ch_equals line)) in
         let! data := or_value_error (Py.int (Py.slice_1_m1 data)) in
         ret (return_data ++ replicate (Z.to_nat (data - next_element)) (VStr EmptyString),
              (data + 1)%Z)
       else ret (return_data, next_element)) in
    let! v := rec in
    ret (return_data ++ [v], next_element)
  else
    let! v := or_value_error (change_data_type line) in
    ret (return_data ++ [v], (next_element + 1)%Z).

(** The first [while]: the logical unit is a list. *)
Fixpoint seq_loop (fuel : nat) (line : string) (return_data : list value)
    (next_element : Z) : M value :=
  match fuel with
  | O => raise OutOfFuel
  | S fuel =>
      if Py.contains ch_rbrace line then ret (VList return_data)
      else
        let! (return_data, next_element) := seq_item line return_data next_element in
        let! line := get_next_line in
        if String.eqb line EmptyString then
          do! print unexpected_eof in
          ret (VList [])
        else seq_loop fuel line return_data next_element
  end.

(** The body of the second [while], up to the store into [return_data]. *)
Definition map_item (line : string) (return_data : gmap string value)
  : M (gmap string value) :=
  if Py.contains ch_equals line then
    let parts := Py.split ch_equals line in
    let key := hd EmptyString parts in
    let data := Py.join ch_equals (tl parts) in
    let! data :=
      (if String.eqb data (str1 ch_lbrace) then rec
       else or_value_error (change_data_type data)) in
    ret (<[key := data]> return_data)
  else
    do! print (unhandled_line line) in
    let! c := get_counter in
    do! print (found_at c) in
    ret return_data.

(** The second [while]: the logical unit is a dict. *)
Fixpoint map_loop (fuel : nat) (line : string) (return_data : gmap string value)
  : M value :=
  match fuel with
  | O => raise OutOfFuel
  | S fuel =>
      if Py.contains ch_rbrace line then ret (VDict return_data)
      else
        let! return_data := map_item line return_data in
        let! line := get_next_line in
        map_loop fuel line return_data
  end.

End Reader.

Fixpoint _map_reader (parsed_map : list string) (fuel : nat) : M value :=
  match fuel with
  | O => raise OutOfFuel
  | S fuel =>
      let! line := get_next_line parsed_map in
      if negb (Py.contains ch_equals line) then
        seq_loop parsed_map (_map_reader parsed_map fuel) fuel line [] 0
      else
        map_loop parsed_map (_map_reader parsed_map fuel) fuel line ∅
  end.

(** ** [Loader.__init__] *)

Definition init_state : state := mkState 1 [] [].

(** [Loader(filename)] on a file whose first line is [data]: the loaded
    [map_data] with the final state, or the exception raised. *)
Definition Loader (data : string) : result (value * state) :=
  let parsed_map := _raw_map_to_list data in
  _map_reader parsed_map (S (length parsed_map)) init_state.

(** [Loader(filename).map_data]. *)
Definition map_data (data : string) : result value :=
  match Loader data with
  | Ok (v, _) => Ok v
  | IndexError => IndexError
  | ValueError => ValueError
  | OutOfFuel => OutOfFuel
  end.

Definition quoted (s : string) : string := str1 ch_quote +:+ s +:+ str1 ch_quote.

(** ** Vocabulary of the statements *)

(** [post m st Q]: if [m] returns from [st], its value and final state
    satisfy [Q].  The statements that a computation does return are
    separate ([map_reader_fuel_enough], and the equations on inputs). *)
Definition post {A} (m : M A) (st : state) (Q : A -> state -> Prop) : Prop :=
  match m st with
  | Ok (a, st') => Q a st'
  | _ => True
  end.

(** From [st] to [st'], exactly the [n] lines at [counter st], ...,
    [counter st + n - 1] were read, in this order, the counter moved by
    [n], and output was only appended. *)
Definition consumed (n : nat) (st st' : state) : Prop :=
  counter st' = counter st + n /\
  reads st' = reads st ++ seq (counter st) n /\
  exists out, stdout st' = stdout st ++ out.

(** [m] reads at least [lo] lines whenever it returns. *)
Definition consumes {A} (lo : nat) (m : M A) : Prop :=
  forall st, post m st (fun _ st' => exists n, lo <= n /\ consumed n st st').

(** [line] is the line just read: the trimmed line below the counter. *)
Definition just_read (parsed_map : list string) (line : string) (st : state) : Prop :=
  0 < counter st /\
  exists raw, parsed_map !! (counter st - 1) = Some raw /\ line = trimmed raw.

(** How a unit whose first line is at index [first] has ended when it
    returns [v] in [st']: the last line read holds the closing brace, or
    it is an empty line after the first one, and then the unit returned the
    empty list right after printing [unexpected_eof]. *)
Definition unit_end (parsed_map : list string) (first : nat) (v : value)
    (st' : state) : Prop :=
  exists raw, parsed_map !! (counter st' - 1) = Some raw /\
    (Py.contains ch_rbrace (trimmed raw) = true \/
     (trimmed raw = EmptyString /\ v = VList [] /\
      last (stdout st') = Some unexpected_eof /\ first < counter st' - 1)).

(** A line that the list branch takes for a scalar and that coerces. *)
Definition scalar_line (raw : string) : Prop :=
  Py.contains ch_lbrace (trimmed raw) = false /\
  Py.contains ch_rbrace (trimmed raw) = false /\
  is_Some (change_data_type (trimmed raw)).

(** The number of occurrences of [c] in [s]. *)
Fixpoint count_char (c : ascii) (s : string) : nat :=
  match s with
  | EmptyString => 0
  | String a r => (if Ascii.eqb a c then 1 else 0) + count_char c r
  end.

(** The last character of [s] is [c]. *)
Fixpoint ends_with (c : ascii) (s : string) : bool :=
  match s with
  | EmptyString => false
  | String a r => match r with EmptyString => Ascii.eqb a c | _ => ends_with c r end
  end.

(** Every character of [s] satisfies [p]. *)
Fixpoint all_chars (p : ascii -> bool) (s : string) : bool :=
  match s with
  | EmptyString => true
  | String a r => p a && all_chars p r
  end.

(** The characters of a printed [int]. *)
Definition sign_or_digit (c : ascii) : bool := Py.is_digit c || Ascii.eqb c "-".

(** The two tokens of the dialect for a [bool]. *)
Definition bool_token (b : bool) : string := if b then "true" else "false".

(** [s] without its newline and tab characters. *)
Fixpoint without_layout (s : string) : string :=
  match s with
  | EmptyString => EmptyString
  | String c r =>
      if Ascii.eqb c ch_newline || Ascii.eqb c ch_tab then without_layout r
      else String c (without_layout r)
  end.

(** The commas of [s] that stand outside quotes, [q] telling whether [s]
    starts inside a quote. *)
Fixpoint unquoted_commas (q : bool) (s : string) : nat :=
  match s with
  | EmptyString => 0
  | String c r =>
      (if Ascii.eqb c ch_comma && negb q then 1 else 0)
      + unquoted_commas (xorb q (Ascii.eqb c ch_quote)) r
  end.

(** A character after or before which [_raw_map_to_list] never breaks the
    line, and that is not a line break itself. *)
Definition plain_char (c : ascii) : bool :=
  negb (Ascii.eqb c ch_lbrace || Ascii.eqb c ch_comma || Ascii.eqb c ch_rbrace
        || Ascii.eqb c ch_newline).

(** A character that changes nothing in the state of the reformatting but
    the text: plain, and not a quote. *)
Definition inert_char (c : ascii) : bool :=
  plain_char c && negb (Ascii.eqb c ch_quote).

(** The line [raw] is an element of a list unit that coerces to [v]. *)
Definition list_item (raw : string) (v : value) : Prop :=
  Py.contains ch_lbrace (trimmed raw) = false /\
  Py.contains ch_rbrace (trimmed raw) = false /\
  change_data_type (trimmed raw) = Some v.

(** The trimmed line [line] is an entry of a dict unit whose data is a
    scalar: [kv] is its key with the coerced data. *)
Definition dict_line (line : string) (kv : string * value) : Prop :=
  let parts := Py.split ch_equals line in
  Py.contains ch_rbrace line = false /\
  Py.contains ch_equals line = true /\
  kv.1 = hd EmptyString parts /\
  String.eqb (Py.join ch_equals (tl parts)) (str1 ch_lbrace) = false /\
  change_data_type (Py.join ch_equals (tl parts)) = Some kv.2.

Definition dict_item (raw : string) (kv : string * value) : Prop :=
  dict_line (trimmed raw) kv.

(** The stores [return_data[key] = data], in the order of the entries. *)
Definition store_all (d : gmap string value) (kvs : list (string * value))
  : gmap string value :=
  foldl (fun d kv => <[kv.1 := kv.2]> d) d kvs.

(** The characters of a bracketed index [[n]]. *)
Definition index_char (c : ascii) : bool :=
  sign_or_digit c || Ascii.eqb c "[" || Ascii.eqb c "]".

(** The characters that [int] accepts somewhere in its argument. *)
Definition int_char (c : ascii) : bool :=
  Py.is_digit c || Ascii.eqb c "_" || Ascii.eqb c "+" || Ascii.eqb c "-"
  || Py.num_space c.

(** Whether a line of a unit opens a nested unit: in a list, a line
    holding an opening brace; in a dict, a line whose text after the first
    [=] is the opening brace alone. *)
Definition opens_unit (is_list : bool) (line : string) : bool :=
  if is_list then Py.contains ch_lbrace line
  else Py.contains ch_equals line &&
       String.eqb (Py.join ch_equals (tl (Py.split ch_equals line))) (str1 ch_lbrace).


(** After reading line [i] itself, a unit reads line [j] next: when line
    [i] opened a nested unit, the line on which the call [rec] made just
    after line [i] returned; the line that follows, otherwise. *)
Definition next_own_line (parsed_map : list string) (rec : M value)
    (is_list : bool) (i j : nat) : Prop :=
  exists raw, parsed_map !! i = Some raw /\
    if opens_unit is_list (trimmed raw)
    then exists st v st', counter st = S i /\ rec st = Ok (v, st') /\ counter st' = j
    else j = S i.

(** Every element of [l] is related to the one after it. *)
Fixpoint chain (R : nat -> nat -> Prop) (l : list nat) : Prop :=
  match l with
  | i :: ((j :: _) as rest) => R i j /\ chain R rest
  | _ => True
  end.

(** [own] lists, in order, the lines that a unit read itself (those read
    by its nested units left out), from its first line [first] to the last
    line it read, [final]; no line before the last holds a closing brace
    and, in a list, no line between the first and the last is empty. *)
Definition own_lines (parsed_map : list string) (rec : M value) (is_list : bool)
    (first final : nat) (own : list nat) : Prop :=
  head own = Some first /\
  last own = Some final /\
  chain (next_own_line parsed_map rec is_list) own /\
  Forall (fun i => exists raw, parsed_map !! i = Some raw /\
                     Py.contains ch_rbrace (trimmed raw) = false)
    (removelast own) /\
  Forall (fun i => exists raw, parsed_map !! i = Some raw /\
                     (is_list = true -> trimmed raw <> EmptyString))
    (tl (removelast own)).

(** The first and the last character of [s]. *)
Definition first_char (s : string) : option ascii :=
  match s with
  | EmptyString => None
  | String c _ => Some c
  end.

Fixpoint last_char (s : string) : option ascii :=
  match s with
  | EmptyString => None
  | String c r => match r with EmptyString => Some c | _ => last_char r end
  end.

(** The characters of the text of a finite [float]. *)
Definition float_out_char (c : ascii) : bool :=
  Py.is_digit c || Ascii.eqb c "." || Ascii.eqb c "e" || Ascii.eqb c "+"
  || Ascii.eqb c "-".

(** * Properties *)

(** ** Reasoning about [M] *)

Lemma post_ok {A} (m : M A) st Q a st' :
  post m st Q -> m st = Ok (a, st') -> Q a st'.
Proof. unfold post. intros H E. now rewrite E in H. Qed.

Lemma post_intro {A} (m : M A) st (Q : A -> state -> Prop) :
  (forall a st', m st = Ok (a, st') -> Q a st') -> post m st Q.
Proof. unfold post. intros H. destruct (m st) as [[a st']| | |]; auto. Qed.

Lemma post_ret {A} (a : A) st (Q : A -> state -> Prop) : Q a st -> post (ret a) st Q.
Proof. exact (fun H => H). Qed.

Lemma post_bind {A B} (m : M A) (k : A -> M B) st Q :
  post m st (fun a st' => post (k a) st' Q) -> post (bind m k) st Q.
Proof. unfold post, bind. destruct (m st) as [[a st']| | |]; auto. Qed.

Lemma post_mono {A} (m : M A) st (Q Q' : A -> state -> Prop) :
  post m st Q -> (forall a st', Q a st' -> Q' a st') -> post m st Q'.
Proof. unfold post. destruct (m st) as [[a st']| | |]; auto. Qed.

Lemma post_raise {A} st (Q : A -> state -> Prop) e :
  (forall r, e <> Ok r) -> post (raise e) st Q.
Proof. unfold post, raise. intros H. destruct e as [[a st']| | |]; auto. now destruct (H (a, st')). Qed.

Lemma post_or_value_error {A} (o : option A) st (Q : A -> state -> Prop) :
  (forall a, o = Some a -> Q a st) -> post (or_value_error o) st Q.
Proof. unfold post, or_value_error. destruct o; auto. Qed.

Lemma post_print line st (Q : unit -> state -> Prop) :
  Q tt (mkState (counter st) (reads st) (stdout st ++ [line])) -> post (print line) st Q.
Proof. exact (fun H => H). Qed.

Lemma post_get_counter st (Q : nat -> state -> Prop) :
  Q (counter st) st -> post get_counter st Q.
Proof. exact (fun H => H). Qed.

Lemma post_get_next_line parsed_map st (Q : string -> state -> Prop) :
  (forall raw, parsed_map !! counter st = Some raw ->
     Q (trimmed raw) (mkState (S (counter st)) (reads st ++ [counter st]) (stdout st))) ->
  post (get_next_line parsed_map) st Q.
Proof. unfold post, get_next_line. destruct (parsed_map !! counter st); auto. Qed.

(** ** The counter and the log of reads *)

Lemma consumed_refl st : consumed 0 st st.
Proof.
  repeat split; [lia | now rewrite app_nil_r | exists []; now rewrite app_nil_r].
Qed.

Lemma consumed_trans n m st1 st2 st3 :
  consumed n st1 st2 -> consumed m st2 st3 -> consumed (n + m) st1 st3.
Proof.
  intros (Hc1 & Hr1 & o1 & Ho1) (Hc2 & Hr2 & o2 & Ho2). repeat split.
  - lia.
  - rewrite Hr2, Hr1, Hc1, seq_app, app_assoc. reflexivity.
  - exists (o1 ++ o2). rewrite Ho2, Ho1, app_assoc. reflexivity.
Qed.

Lemma consumed_read st :
  consumed 1 st (mkState (S (counter st)) (reads st ++ [counter st]) (stdout st)).
Proof. repeat split; simpl; [lia | exists []; now rewrite app_nil_r]. Qed.

Lemma consumed_print line st :
  consumed 0 st (mkState (counter st) (reads st) (stdout st ++ [line])).
Proof. repeat split; simpl; [lia | now rewrite app_nil_r | now exists [line]]. Qed.

Lemma consumes_after {A} (m : M A) lo st0 k st :
  consumes lo m -> consumed k st0 st ->
  post m st (fun _ st' => exists n, k + lo <= n /\ consumed n st0 st').
Proof.
  intros Hm Hk. eapply post_mono; [apply Hm |].
  intros _ st' (n & Hn & Hc). exists (k + n). split; [lia |].
  eapply consumed_trans; eassumption.
Qed.

Section ReaderConsumes.

Variable parsed_map : list string.
Variable rec : M value.
Hypothesis rec_consumes : consumes 1 rec.

Lemma seq_item_consumes line return_data next_element :
  consumes 0 (seq_item rec line return_data next_element).
Proof.
  intros st. unfold seq_item.
  destruct (Py.contains ch_lbrace line).
  - apply post_bind.
    destruct (Py.contains ch_equals line).
    + apply post_bind, post_or_value_error. intros data _. apply post_ret.
      apply post_bind. eapply post_mono; [apply rec_consumes |].
      intros v st' (n & Hn & Hc). apply post_ret. exists n. split; [lia | exact Hc].
    + apply post_ret, post_bind. eapply post_mono; [apply rec_consumes |].
      intros v st' (n & Hn & Hc). apply post_ret. exists n. split; [lia | exact Hc].
  - apply post_bind, post_or_value_error. intros v _. apply post_ret.
    exists 0. split; [lia | apply consumed_refl].
Qed.

Lemma map_item_consumes line return_data :
  consumes 0 (map_item rec line return_data).
Proof.
  intros st. unfold map_item.
  destruct (Py.contains ch_equals line).
  - apply post_bind.
    destruct (String.eqb _ _).
    + eapply post_mono; [apply rec_consumes |].
      intros v st' (n & Hn & Hc). apply post_ret. exists n. split; [lia | exact Hc].
    + apply post_or_value_error. intros v _. apply post_ret.
      exists 0. split; [lia | apply consumed_refl].
  - apply post_bind, post_print, post_bind, post_get_counter, post_bind, post_print, post_ret.
    exists 0. split; [lia |].
    eapply (consumed_trans 0 0); apply consumed_print.
Qed.

Lemma get_next_line_consumes : consumes 1 (get_next_line parsed_map).
Proof.
  intros st. apply post_get_next_line. intros raw _.
  exists 1. split; [lia | apply consumed_read].
Qed.

Lemma seq_loop_consumes fuel line return_data next_element :
  consumes 0 (seq_loop parsed_map rec fuel line return_data next_element).
Proof.
  revert line return_data next_element.
  induction fuel as [|fuel IH]; intros line return_data next_element st; simpl.
  - now apply post_raise.
  - destruct (Py.contains ch_rbrace line).
    { apply post_ret. exists 0. split; [lia | apply consumed_refl]. }
    apply post_bind. eapply post_mono; [apply seq_item_consumes |].
    intros [rd ne] st1 (n1 & _ & H1). apply post_bind.
    eapply post_mono; [apply (consumes_after _ 1 st n1), H1; apply get_next_line_consumes |].
    intros line' st2 (n2 & _ & H2). cbv beta.
    destruct (String.eqb line' EmptyString).
    + apply post_bind, post_print, post_ret. exists (n2 + 0). split; [lia |].
      apply (consumed_trans _ _ _ _ _ H2), consumed_print.
    + eapply post_mono; [apply (consumes_after _ 0 st n2), H2; apply IH |].
      intros _ st3 (n3 & _ & H3). exists n3. split; [lia | exact H3].
Qed.

Lemma map_loop_consumes fuel line return_data :
  consumes 0 (map_loop parsed_map rec fuel line return_data).
Proof.
  revert line return_data.
  induction fuel as [|fuel IH]; intros line return_data st; simpl.
  - now apply post_raise.
  - destruct (Py.contains ch_rbrace line).
    { apply post_ret. exists 0. split; [lia | apply consumed_refl]. }
    apply post_bind. eapply post_mono; [apply map_item_consumes |].
    intros rd st1 (n1 & _ & H1). apply post_bind.
    eapply post_mono; [apply (consumes_after _ 1 st n1), H1; apply get_next_line_consumes |].
    intros line' st2 (n2 & _ & H2).
    eapply post_mono; [apply (consumes_after _ 0 st n2), H2; apply IH |].
    intros _ st3 (n3 & _ & H3). exists n3. split; [lia | exact H3].
Qed.

End ReaderConsumes.

(** Every call of [_map_reader] that returns has read at least one line,
    and the lines it read are consecutive, starting at the counter. *)
Lemma map_reader_consumes parsed_map fuel : consumes 1 (_map_reader parsed_map fuel).
Proof.
  induction fuel as [|fuel IH]; intros st; simpl.
  - now apply post_raise.
  - apply post_bind.
    eapply post_mono; [apply get_next_line_consumes |].
    intros line st1 (n1 & Hn1 & H1). cbv beta.
    destruct (negb _).
    + eapply post_mono;
        [apply (consumes_after _ 0 st n1), H1; apply seq_loop_consumes, IH |].
      intros _ st2 (n2 & Hn2 & H2). exists n2. split; [lia | exact H2].
    + eapply post_mono;
        [apply (consumes_after _ 0 st n1), H1; apply map_loop_consumes, IH |].
      intros _ st2 (n2 & Hn2 & H2). exists n2. split; [lia | exact H2].
Qed.

(** ** The fuel is enough *)

Section ReaderFuel.

Variable parsed_map : list string.
Variable rec : M value.
Variable f : nat.
Hypothesis rec_consumes : consumes 1 rec.
Hypothesis rec_fuel :
  forall st, 0 < f -> length parsed_map < f + counter st -> rec st <> OutOfFuel.

Lemma seq_item_fuel line return_data next_element st :
  0 < f -> length parsed_map < f + counter st ->
  seq_item rec line return_data next_element st <> OutOfFuel.
Proof.
  intros Hf Hlen. specialize (rec_fuel st Hf Hlen).
  unfold seq_item, bind, ret, or_value_error.
  destruct (Py.contains ch_lbrace line).
  - destruct (Py.contains ch_equals line).
    + destruct (Py.int _); [| discriminate].
      destruct (rec st) as [[v st']| | |]; congruence.
    + destruct (rec st) as [[v st']| | |]; congruence.
  - destruct (change_data_type line); discriminate.
Qed.

Lemma map_item_fuel line return_data st :
  0 < f -> length parsed_map < f + counter st ->
  map_item rec line return_data st <> OutOfFuel.
Proof.
  intros Hf Hlen. specialize (rec_fuel st Hf Hlen).
  unfold map_item, bind, ret, or_value_error, print, get_counter.
  destruct (Py.contains ch_equals line); [| discriminate].
  destruct (String.eqb _ _).
  - destruct (rec st) as [[v st']| | |]; congruence.
  - destruct (change_data_type _); discriminate.
Qed.

Lemma seq_loop_fuel k : forall line return_data next_element st,
  k <= f -> counter st <= length parsed_map -> length parsed_map < k + counter st ->
  seq_loop parsed_map rec k line return_data next_element st <> OutOfFuel.
Proof.
  induction k as [|k IH]; intros line return_data next_element st Hk Hc Hlen;
    [lia |]. simpl.
  destruct (Py.contains ch_rbrace line); [discriminate |].
  unfold bind at 1.
  pose proof (seq_item_fuel line return_data next_element st ltac:(lia) ltac:(lia)) as Hitem.
  pose proof (seq_item_consumes rec rec_consumes line return_data next_element st) as Hmono.
  unfold post in Hmono.
  destruct (seq_item rec line return_data next_element st)
    as [[[rd ne] st1]| | |]; try congruence.
  destruct Hmono as (n & _ & Hn & _).
  unfold bind at 1, get_next_line.
  destruct (parsed_map !! counter st1) as [raw|] eqn:Hraw; [| discriminate].
  apply lookup_lt_Some in Hraw.
  destruct (String.eqb (trimmed raw) EmptyString); [discriminate |].
  apply IH; simpl; lia.
Qed.

Lemma map_loop_fuel k : forall line return_data st,
  k <= f -> counter st <= length parsed_map -> length parsed_map < k + counter st ->
  map_loop parsed_map rec k line return_data st <> OutOfFuel.
Proof.
  induction k as [|k IH]; intros line return_data st Hk Hc Hlen; [lia |]. simpl.
  destruct (Py.contains ch_rbrace line); [discriminate |].
  unfold bind at 1.
  pose proof (map_item_fuel line return_data st ltac:(lia) ltac:(lia)) as Hitem.
  pose proof (map_item_consumes rec rec_consumes line return_data st) as Hmono.
  unfold post in Hmono.
  destruct (map_item rec line return_data st) as [[rd st1]| | |]; try congruence.
  destruct Hmono as (n & _ & Hn & _).
  unfold bind at 1, get_next_line.
  destruct (parsed_map !! counter st1) as [raw|] eqn:Hraw; [| discriminate].
  apply lookup_lt_Some in Hraw.
  apply IH; simpl; lia.
Qed.

End ReaderFuel.

(** With more fuel than there are lines left, [_map_reader] returns or
    raises one of the module's own exceptions. *)
Lemma map_reader_fuel_enough parsed_map fuel : forall st,
  0 < fuel -> length parsed_map < fuel + counter st ->
  _map_reader parsed_map fuel st <> OutOfFuel.
Proof.
  induction fuel as [|fuel IH]; intros st Hfuel Hlen; [lia |]. simpl.
  - unfold bind, get_next_line.
    destruct (parsed_map !! counter st) as [raw|] eqn:Hraw; [| discriminate].
    apply lookup_lt_Some in Hraw.
    destruct (negb _).
    + apply (seq_loop_fuel parsed_map _ fuel (map_reader_consumes _ _) IH);
        simpl; lia.
    + apply (map_loop_fuel parsed_map _ fuel (map_reader_consumes _ _) IH);
        simpl; lia.
Qed.

(** [Loader] never runs out of fuel: its result is a value or a Python
    exception. *)
Lemma Loader_total data : Loader data <> OutOfFuel.
Proof. apply map_reader_fuel_enough; simpl; lia. Qed.

(** ** Where a logical unit ends *)

Section ReaderEnd.

Variable parsed_map : list string.
Variable rec : M value.
Hypothesis rec_consumes : consumes 1 rec.

Lemma just_read_next st raw :
  parsed_map !! counter st = Some raw ->
  just_read parsed_map (trimmed raw)
    (mkState (S (counter st)) (reads st ++ [counter st]) (stdout st)).
Proof.
  intros Hraw. split; simpl; [lia |]. exists raw.
  now rewrite Nat.sub_0_r.
Qed.

Lemma seq_loop_end first fuel : forall line return_data next_element st,
  first < counter st -> just_read parsed_map line st ->
  post (seq_loop parsed_map rec fuel line return_data next_element) st
    (unit_end parsed_map first).
Proof.
  induction fuel as [|fuel IH]; intros line return_data next_element st Hfirst Hline;
    simpl.
  - now apply post_raise.
  - destruct (Py.contains ch_rbrace line) eqn:Hbrace.
    { apply post_ret. destruct Hline as (_ & raw & Hraw & ->).
      exists raw. auto. }
    apply post_bind. eapply post_mono; [apply seq_item_consumes, rec_consumes |].
    intros [rd ne] st1 (n1 & _ & Hc1 & _). apply post_bind, post_get_next_line.
    intros raw Hraw. destruct (String.eqb_spec (trimmed raw) EmptyString) as [Hempty|_].
    + apply post_bind, post_print, post_ret. exists raw. simpl.
      rewrite Nat.sub_0_r. split; [exact Hraw | right].
      repeat split; [exact Hempty | apply last_snoc | lia].
    + apply IH; [simpl; lia | now apply just_read_next].
Qed.

Lemma map_loop_end first fuel : forall line return_data st,
  just_read parsed_map line st ->
  post (map_loop parsed_map rec fuel line return_data) st (unit_end parsed_map first).
Proof.
  induction fuel as [|fuel IH]; intros line return_data st Hline; simpl.
  - now apply post_raise.
  - destruct (Py.contains ch_rbrace line) eqn:Hbrace.
    { apply post_ret. destruct Hline as (_ & raw & Hraw & ->).
      exists raw. auto. }
    apply post_bind. eapply post_mono; [apply map_item_consumes, rec_consumes |].
    intros rd st1 _. apply post_bind, post_get_next_line.
    intros raw Hraw. apply IH. now apply just_read_next.
Qed.

End ReaderEnd.

Lemma map_reader_end parsed_map fuel st :
  post (_map_reader parsed_map fuel) st (unit_end parsed_map (counter st)).
Proof.
  destruct fuel as [|fuel]; simpl.
  - now apply post_raise.
  - apply post_bind, post_get_next_line. intros raw Hraw.
    destruct (negb _).
    + apply seq_loop_end;
        [apply map_reader_consumes | simpl; lia | now apply just_read_next].
    + apply map_loop_end; [apply map_reader_consumes | now apply just_read_next].
Qed.

(** ** Claims about the cursor and the unit boundaries *)

(** C5 — Across a parse that returns, the shared counter only grows, by
    one for each line read: the lines read by a call of [_map_reader] are
    the consecutive indices from the counter at the call up to the counter
    at the return, each read once, in increasing order. *)
Theorem cursor_advances_one_per_line parsed_map fuel st v st' :
  _map_reader parsed_map fuel st = Ok (v, st') ->
  exists n, 0 < n /\
    counter st' = counter st + n /\
    reads st' = reads st ++ seq (counter st) n /\
    NoDup (seq (counter st) n).
Proof.
  intros Hrun.
  destruct (post_ok _ _ _ _ _ (map_reader_consumes parsed_map fuel st) Hrun)
    as (n & Hn & Hc & Hr & _).
  exists n. repeat split; [lia | exact Hc | exact Hr | apply NoDup_seq].
Qed.

Lemma cursor_advances_one_per_line_witness :
  exists n, 0 < n /\
    7 = 1 + n /\
    [1; 2; 3; 4; 5; 6] = [] ++ seq 1 n /\
    NoDup (seq 1 n).
Proof.
  exact (cursor_advances_one_per_line (_raw_map_to_list "{1,2,[4]={5}}") 8
           init_state
           (VList [VInt 1; VInt 2; VStr ""; VStr ""; VList [VInt 5]])
           (mkState 7 [1; 2; 3; 4; 5; 6] []) eq_refl).
Defined.

Lemma seq_loop_unfold parsed_map rec fuel line return_data next_element :
  seq_loop parsed_map rec (S fuel) line return_data next_element =
    if Py.contains ch_rbrace line then ret (VList return_data)
    else
      let! (return_data, next_element) := seq_item rec line return_data next_element in
      let! line := get_next_line parsed_map in
      if String.eqb line EmptyString then
        do! print unexpected_eof in ret (VList [])
      else seq_loop parsed_map rec fuel line return_data next_element.
Proof. reflexivity. Qed.

Lemma map_loop_unfold parsed_map rec fuel line return_data :
  map_loop parsed_map rec (S fuel) line return_data =
    if Py.contains ch_rbrace line then ret (VDict return_data)
    else
      let! return_data := map_item rec line return_data in
      let! line := get_next_line parsed_map in
      map_loop parsed_map rec fuel line return_data.
Proof. reflexivity. Qed.

Lemma map_reader_unfold parsed_map fuel :
  _map_reader parsed_map (S fuel) =
    let! line := get_next_line parsed_map in
    if negb (Py.contains ch_equals line) then
      seq_loop parsed_map (_map_reader parsed_map fuel) fuel line [] 0
    else
      map_loop parsed_map (_map_reader parsed_map fuel) fuel line ∅.
Proof. reflexivity. Qed.

Section ReaderOwnLines.

Variable parsed_map : list string.
Variable rec : M value.



Variable is_list : bool.





End ReaderOwnLines.

Section ReaderLoopsOwnLines.

Variable parsed_map : list string.
Variable rec : M value.



End ReaderLoopsOwnLines.




(** The lines of [{a={1,,2},b=3}] are [{], [a={], [1,], [,], [2], [},],
    [b=3] and [}].  The list under [a] reads lines 2 and 3 and is cut short
    at the empty line 3.  The dict reads lines 1, 4 and 5 itself: line 4
    holds no [=] and is reported, line 5, the brace of the list, ends the
    dict, and the lines [b=3] and [}] are not read. *)
Lemma own_lines_of_cut_short_nesting :
  Loader "{a={1,,2},b=3}" =
    Ok (VDict {[ "a" := VList [] ]},
        mkState 6 [1; 2; 3; 4; 5] [unexpected_eof; unhandled_line "2"; found_at 5]) /\
  _map_reader (_raw_map_to_list "{a={1,,2},b=3}") 8 (mkState 2 [1] []) =
    Ok (VList [], mkState 4 [1; 2; 3] [unexpected_eof]) /\
  own_lines (_raw_map_to_list "{a={1,,2},b=3}")
    (_map_reader (_raw_map_to_list "{a={1,,2},b=3}") 8) false 1 5 [1; 4; 5].
Proof.
  split; [vm_compute; reflexivity | split; [vm_compute; reflexivity |]].
  split; [reflexivity | split; [reflexivity | split; [| split]]].
  - split; [| split; [| exact I]].
    + eexists. split; [vm_compute; reflexivity |].
      match goal with
      | |- if ?b then _ else _ => replace b with true by (vm_compute; reflexivity)
      end.
      exists (mkState 2 [1] []), (VList []), (mkState 4 [1; 2; 3] [unexpected_eof]).
      repeat split.
    + eexists. split; [vm_compute; reflexivity |].
      match goal with
      | |- if ?b then _ else _ => replace b with false by (vm_compute; reflexivity)
      end.
      reflexivity.
  - repeat constructor; eexists; (split; [vm_compute; reflexivity |]);
      vm_compute; reflexivity.
  - repeat constructor; eexists; (split; [vm_compute; reflexivity |]); discriminate.
Qed.


(** One round of the list loop that ends on an empty line. *)
Lemma seq_loop_abort_step parsed_map rec fuel line return_data next_element
    st rd ne st1 raw :
  Py.contains ch_rbrace line = false ->
  seq_item rec line return_data next_element st = Ok ((rd, ne), st1) ->
  parsed_map !! counter st1 = Some raw ->
  trimmed raw = EmptyString ->
  seq_loop parsed_map rec (S fuel) line return_data next_element st =
    Ok (VList [],
        mkState (S (counter st1)) (reads st1 ++ [counter st1])
          (stdout st1 ++ [unexpected_eof])).
Proof.
  intros Hbrace Hitem Hraw Hempty. simpl. rewrite Hbrace.
  unfold bind at 1. rewrite Hitem.
  unfold bind at 1, get_next_line. rewrite Hraw, Hempty. reflexivity.
Qed.

Lemma seq_item_scalar rec line return_data next_element st v :
  Py.contains ch_lbrace line = false ->
  change_data_type line = Some v ->
  seq_item rec line return_data next_element st =
    Ok ((return_data ++ [v], (next_element + 1)%Z), st).
Proof.
  intros Hbrace Hv. unfold seq_item, bind, or_value_error, ret.
  now rewrite Hbrace, Hv.
Qed.

(** A list of scalar lines followed by an empty line: whatever has been
    gathered, the loop returns the empty list. *)
Lemma seq_loop_flat_cut rec empty post rest : forall pre line return_data
    next_element st fuel,
  counter st = length pre ->
  Py.contains ch_lbrace line = false ->
  Py.contains ch_rbrace line = false ->
  is_Some (change_data_type line) ->
  Forall (fun raw => scalar_line raw /\ trimmed raw <> EmptyString) rest ->
  trimmed empty = EmptyString ->
  length rest < fuel ->
  seq_loop (pre ++ rest ++ empty :: post) rec fuel line return_data next_element st =
    Ok (VList [],
        mkState (counter st + length rest + 1)
          (reads st ++ seq (counter st) (length rest + 1))
          (stdout st ++ [unexpected_eof])).
Proof.
  induction rest as [|r rest IH];
    intros pre line return_data next_element st fuel Hc Hlb Hrb [v Hv] Hrest
      Hempty Hfuel;
    (destruct fuel as [|fuel]; [simpl in Hfuel; lia |]).
  - rewrite (seq_loop_abort_step _ rec fuel line return_data next_element st
               (return_data ++ [v]) (next_element + 1)%Z st empty Hrb
               (seq_item_scalar _ _ _ _ _ _ Hlb Hv)); [| | exact Hempty].
    + simpl. do 2 f_equal. f_equal; lia.
    + simpl. rewrite Hc. apply list_lookup_middle. reflexivity.
  - apply Forall_cons in Hrest as [[(Hlb' & Hrb' & Hv') Hne] Hrest].
    simpl seq_loop. rewrite Hrb. unfold bind at 1.
    rewrite (seq_item_scalar _ _ _ _ _ _ Hlb Hv).
    unfold bind at 1, get_next_line.
    assert (Hraw : (pre ++ r :: rest ++ empty :: post) !! counter st = Some r).
    { rewrite Hc. apply list_lookup_middle. reflexivity. }
    rewrite Hraw. apply String.eqb_neq in Hne. rewrite Hne.
    change (pre ++ r :: rest ++ empty :: post)
      with (pre ++ [r] ++ rest ++ empty :: post).
    rewrite (app_assoc pre [r]).
    rewrite (IH (pre ++ [r])); simpl;
      [| rewrite length_app; simpl; lia | assumption .. | simpl in Hfuel; lia].
    do 2 f_equal. f_equal; [lia |].
    rewrite <- app_assoc. simpl. do 2 f_equal.
Qed.

(** C3 (amended) — In a list unit, when the line read after an element
    (so: not the unit's first line) is empty, the loop prints
    [unexpected_eof], drops the elements gathered so far and returns the
    empty list without raising; the counter stays just past the empty
    line.  The first part is one round of the loop, from any state of any
    list unit; the second is a whole unit made of scalar lines. *)
Theorem list_unit_cut_by_empty_line :
  (forall parsed_map rec fuel line return_data next_element st rd ne st1 raw,
     Py.contains ch_rbrace line = false ->
     seq_item rec line return_data next_element st = Ok ((rd, ne), st1) ->
     parsed_map !! counter st1 = Some raw ->
     trimmed raw = EmptyString ->
     seq_loop parsed_map rec (S fuel) line return_data next_element st =
       Ok (VList [],
           mkState (S (counter st1)) (reads st1 ++ [counter st1])
             (stdout st1 ++ [unexpected_eof]))) /\
  (forall pre first rest empty post fuel st,
     counter st = length pre ->
     Py.contains ch_equals (trimmed first) = false ->
     scalar_line first ->
     Forall (fun raw => scalar_line raw /\ trimmed raw <> EmptyString) rest ->
     trimmed empty = EmptyString ->
     length rest < fuel ->
     _map_reader (pre ++ first :: rest ++ empty :: post) (S fuel) st =
       Ok (VList [],
           mkState (counter st + length rest + 2)
             (reads st ++ seq (counter st) (length rest + 2))
             (stdout st ++ [unexpected_eof]))).
Proof.
  split; [apply seq_loop_abort_step |].
  intros pre first rest empty post fuel st Hc Heq (Hlb & Hrb & Hv) Hrest Hempty Hfuel.
  simpl _map_reader. unfold bind at 1, get_next_line.
  assert (Hraw : (pre ++ first :: rest ++ empty :: post) !! counter st = Some first).
  { rewrite Hc. apply list_lookup_middle. reflexivity. }
  rewrite Hraw, Heq. change (negb false) with true. cbv iota.
  change (pre ++ first :: rest ++ empty :: post)
    with (pre ++ [first] ++ rest ++ empty :: post).
  rewrite (app_assoc pre [first]).
  rewrite (seq_loop_flat_cut _ empty post rest (pre ++ [first])); simpl;
    [| rewrite length_app; simpl; lia | assumption ..].
  replace (length rest + 2) with (S (length rest + 1)) by lia.
  replace (counter st + length rest + 2) with (S (counter st + length rest + 1))
    by lia.
  now rewrite <- app_assoc.
Qed.

Lemma list_unit_cut_by_empty_line_witness :
  seq_loop (_raw_map_to_list "{1,2,}") (_map_reader (_raw_map_to_list "{1,2,}") 5)
      5 "2" [VInt 1] 1 (mkState 3 [1; 2] []) =
    Ok (VList [], mkState 4 [1; 2; 3] [unexpected_eof]) /\
  _map_reader (["{"] ++ (str1 ch_tab +:+ "1,") :: [str1 ch_tab +:+ "2,"] ++ str1 ch_tab :: ["}"])
      5 init_state =
    Ok (VList [], mkState (1 + 1 + 2) ([] ++ seq 1 (1 + 2)) ([] ++ [unexpected_eof])).
Proof.
  split.
  - exact (proj1 list_unit_cut_by_empty_line (_raw_map_to_list "{1,2,}")
             (_map_reader (_raw_map_to_list "{1,2,}") 5) 4 "2" [VInt 1] 1%Z
             (mkState 3 [1; 2] []) [VInt 1; VInt 2] 2%Z (mkState 3 [1; 2] [])
             (str1 ch_tab) eq_refl eq_refl eq_refl eq_refl).
  - apply (proj2 list_unit_cut_by_empty_line ["{"] (str1 ch_tab +:+ "1,")
             [str1 ch_tab +:+ "2,"] (str1 ch_tab) ["}"] 4 init_state).
    + reflexivity.
    + reflexivity.
    + repeat split. now exists (VInt 1).
    + repeat constructor.
      * now exists (VInt 2).
      * discriminate.
    + reflexivity.
    + simpl. lia.
Defined.

(** C3, as stated, fails on [{}]: the unit's first line is empty and is
    read before the closing brace, yet nothing is printed and the unit
    returns the one-element list holding the empty string. *)
Lemma empty_first_line_is_kept :
  _raw_map_to_list "{}" = ["{"; str1 ch_tab; "}"] /\
  trimmed (str1 ch_tab) = EmptyString /\
  Loader "{}" = Ok (VList [VStr ""], mkState 3 [1; 2] []).
Proof. repeat split. Qed.

(** ** Claims about the list branch *)

(** C1 (amended) — A bracketed index is read on a line that opens a nested
    unit: the reader appends one empty string for every index from
    [next_element] up to the index, then the nested value, and sets
    [next_element] to the index plus one.  So [{1,2,[4]={5}}] loads as
    [[1, 2, "", "", [5]]]. *)
Theorem sparse_index_padding :
  (forall rec line return_data next_element st n,
     Py.contains ch_lbrace line = true ->
     Py.contains ch_equals line = true ->
     Py.int (Py.slice_1_m1 (Py.strip (hd EmptyString (Py.split ch_equals line)))) = Some n ->
     seq_item rec line return_data next_element st =
       (let! v := rec in
        ret (return_data ++ replicate (Z.to_nat (n - next_element)) (VStr "") ++ [v],
             (n + 1)%Z)) st) /\
  map_data "{1,2,[4]={5}}" =
    Ok (VList [VInt 1; VInt 2; VStr ""; VStr ""; VList [VInt 5]]).
Proof.
  split; [| reflexivity].
  intros rec line return_data next_element st n Hbrace Heq Hint.
  unfold seq_item. rewrite Hbrace, Heq.
  unfold bind, ret, or_value_error. rewrite Hint.
  destruct (rec st) as [[v st']| | |]; try reflexivity.
  now rewrite <- app_assoc.
Qed.

Lemma sparse_index_padding_witness :
  seq_item (ret (VList [VInt 5])) "[4]={" [VInt 1; VInt 2] 2 init_state =
    Ok (([VInt 1; VInt 2; VStr ""; VStr ""; VList [VInt 5]], 5%Z), init_state).
Proof.
  exact (proj1 sparse_index_padding (ret (VList [VInt 5])) "[4]={"
           [VInt 1; VInt 2] 2%Z init_state 4%Z eq_refl eq_refl eq_refl).
Defined.

(** C1, as stated, fails: in [{1,2,[4]=5}] the indexed entry is a scalar,
    its line [[4]=5] holds no opening brace and goes to
    [change_data_type] whole, where [int] raises [ValueError]. *)
Lemma scalar_with_index_raises :
  _raw_map_to_list "{1,2,[4]=5}" =
    ["{"; str1 ch_tab +:+ "1,"; str1 ch_tab +:+ "2,"; str1 ch_tab +:+ "[4]=5"; "}"] /\
  change_data_type "[4]=5" = None /\
  map_data "{1,2,[4]=5}" = ValueError /\
  map_data "{1,2,[4]=5}" <> Ok (VList [VInt 1; VInt 2; VStr ""; VStr ""; VInt 5]).
Proof. repeat split. discriminate. Qed.

(** C2 — what the code does on [{{1},[2]={3}}]: the nested list [{1}] has
    no index and leaves [next_element] at 0, so the later index 2 is padded
    with two empty strings, not with one. *)
Theorem unindexed_nested_unit_not_counted :
  map_data "{{1},[2]={3}}" =
    Ok (VList [VList [VInt 1]; VStr ""; VStr ""; VList [VInt 3]]).
Proof. reflexivity. Qed.

(** The same at the level of one element: an opening line without [=]
    appends the nested value and returns [next_element] unchanged. *)
Lemma seq_item_nested_without_index rec line return_data next_element st :
  Py.contains ch_lbrace line = true ->
  Py.contains ch_equals line = false ->
  seq_item rec line return_data next_element st =
    (let! v := rec in ret (return_data ++ [v], next_element)) st.
Proof. intros Hbrace Heq. unfold seq_item. now rewrite Hbrace, Heq. Qed.

(** ** Claims about the dict branch *)

(** C9 — In a dict unit, a line with neither [=] nor the closing brace
    makes the loop print two lines, naming the line and the counter (the
    line's position counted from one), change nothing in [return_data] and
    go on with the next line.  So [{a=1,garbage,b=2}] loads as the dict
    with [a] at 1 and [b] at 2, with that one message printed. *)
Theorem unhandled_dict_line_skipped :
  (forall parsed_map rec fuel line return_data st,
     Py.contains ch_rbrace line = false ->
     Py.contains ch_equals line = false ->
     map_loop parsed_map rec (S fuel) line return_data st =
       (let! line' := get_next_line parsed_map in
        map_loop parsed_map rec fuel line' return_data)
         (mkState (counter st) (reads st)
            ((stdout st ++ [unhandled_line line]) ++ [found_at (counter st)]))) /\
  _raw_map_to_list "{a=1,garbage,b=2}" !! 2 = Some (str1 ch_tab +:+ "garbage,") /\
  Loader "{a=1,garbage,b=2}" =
    Ok (VDict {[ "a" := VInt 1; "b" := VInt 2 ]},
        mkState 5 [1; 2; 3; 4]
          ["Unhandled line in a dictionary like logical part: garbage";
           "It can be found at line number 3."]).
Proof.
  split; [| split; [reflexivity | vm_compute; reflexivity]].
  intros parsed_map rec fuel line return_data st Hbrace Heq.
  simpl. rewrite Hbrace. unfold map_item. rewrite Heq. reflexivity.
Qed.

Lemma unhandled_dict_line_skipped_witness :
  map_loop (_raw_map_to_list "{a=1,garbage,b=2}")
      (_map_reader (_raw_map_to_list "{a=1,garbage,b=2}") 5) 5 "garbage"
      {[ "a" := VInt 1 ]} (mkState 3 [1; 2] []) =
    (let! line' := get_next_line (_raw_map_to_list "{a=1,garbage,b=2}") in
     map_loop (_raw_map_to_list "{a=1,garbage,b=2}")
       (_map_reader (_raw_map_to_list "{a=1,garbage,b=2}") 5) 4 line'
       {[ "a" := VInt 1 ]})
      (mkState 3 [1; 2] (([] ++ [unhandled_line "garbage"]) ++ [found_at 3])).
Proof.
  exact (proj1 unhandled_dict_line_skipped (_raw_map_to_list "{a=1,garbage,b=2}")
           (_map_reader (_raw_map_to_list "{a=1,garbage,b=2}") 5) 4 "garbage"
           {[ "a" := VInt 1 ]} (mkState 3 [1; 2] []) eq_refl eq_refl).
Defined.

(** ** Claims about the preprocessing pass *)

Lemma list_ascii_of_string_app a b :
  list_ascii_of_string (a +:+ b) = list_ascii_of_string a ++ list_ascii_of_string b.
Proof. induction a as [|c a IH]; simpl; [reflexivity | now rewrite IH]. Qed.

Lemma prep_run_app p a b : prep_run p (a +:+ b) = prep_run (prep_run p a) b.
Proof. unfold prep_run. now rewrite list_ascii_of_string_app, fold_left_app. Qed.

Lemma prep_run_cons p c s : prep_run p (String c s) = prep_run (prep_step p c) s.
Proof. reflexivity. Qed.

Lemma prep_step_in_quote p ch :
  in_quote (prep_step p ch) = xorb (in_quote p) (Ascii.eqb ch ch_quote).
Proof.
  unfold prep_step.
  destruct (Ascii.eqb ch ch_lbrace), (Ascii.eqb ch ch_comma), (Ascii.eqb ch ch_rbrace),
    (Ascii.eqb ch ch_quote), (in_quote p); reflexivity.
Qed.

(** The quote flag after [s] is the parity of the quotes in [s]. *)
Lemma prep_run_in_quote s : forall p,
  in_quote (prep_run p s) = xorb (in_quote p) (Nat.odd (count_char ch_quote s)).
Proof.
  induction s as [|c s IH]; intros p.
  - change (in_quote p = xorb (in_quote p) false). now rewrite xorb_false_r.
  - rewrite prep_run_cons, IH, prep_step_in_quote. simpl count_char.
    destruct (Ascii.eqb c ch_quote); simpl Nat.add.
    + rewrite Nat.odd_succ, <- Nat.negb_odd.
      destruct (in_quote p), (Nat.odd (count_char ch_quote s)); reflexivity.
    + now rewrite xorb_false_r.
Qed.

(** C8 — When the scan reaches a comma, the quote flag is the parity of
    the quotes before it; the comma is copied, and a newline with the
    indentation follows it only when the flag is off.  So
    [{a="x,y",b=2}] is split into the lines of two entries and loads as the
    dict with [a] at the quoted text, comma included, and [b] at 2. *)
Theorem comma_inside_quotes_kept :
  (forall before after,
     let p := prep_run prep_init before in
     in_quote p = Nat.odd (count_char ch_quote before) /\
     prep_run prep_init (before +:+ String ch_comma after) =
       prep_run
         (mkPrep
            (extended_map p +:+ str1 ch_comma
               +:+ (if in_quote p then EmptyString else newline_indent (indents p)))
            (indents p) (in_quote p))
         after) /\
  _raw_map_to_list ("{a=" +:+ quoted "x,y" +:+ ",b=2}") =
    ["{"; str1 ch_tab +:+ "a=" +:+ quoted "x,y" +:+ ","; str1 ch_tab +:+ "b=2"; "}"] /\
  Loader ("{a=" +:+ quoted "x,y" +:+ ",b=2}") =
    Ok (VDict {[ "a" := VStr (quoted "x,y"); "b" := VInt 2 ]}, mkState 4 [1; 2; 3] []).
Proof.
  split; [| split; [reflexivity | vm_compute; reflexivity]].
  intros before after p. split.
  - subst p. now rewrite prep_run_in_quote.
  - rewrite prep_run_app, prep_run_cons. reflexivity.
Qed.

(** ** Claims about [change_data_type] *)

Lemma contains_not_eq c s t :
  Py.contains c s = true -> Py.contains c t = false -> String.eqb s t = false.
Proof.
  intros Hs Ht. destruct (String.eqb_spec s t) as [->|]; [congruence | reflexivity].
Qed.

(** C7 — A token that holds a double quote anywhere is returned as the
    same text, quotes included: the test for the quote comes before the
    tests that lead to [float] and [int], so a quoted token that looks like
    a number is not converted. *)
Theorem quoted_token_kept_verbatim token :
  Py.contains ch_quote token = true ->
  change_data_type token = Some (VStr token).
Proof.
  intros Hq. unfold change_data_type.
  rewrite !(contains_not_eq ch_quote token) by (exact Hq || reflexivity).
  now rewrite Hq.
Qed.

Lemma quoted_token_kept_verbatim_witness :
  change_data_type (quoted "3.5") = Some (VStr (quoted "3.5")).
Proof. exact (quoted_token_kept_verbatim (quoted "3.5") eq_refl). Defined.

(** ** Claims about [get_next_line] *)

Lemma rstrip_by_ends_with c s :
  ends_with c (Py.rstrip_by (Ascii.eqb c) s) = false.
Proof.
  induction s as [|a r IH]; simpl; [reflexivity |].
  destruct (Py.rstrip_by (Ascii.eqb c) r) as [|b r'].
  - destruct (Ascii.eqb c a) eqn:E; simpl; [reflexivity |].
    now rewrite Ascii.eqb_sym.
  - exact IH.
Qed.

Lemma trimmed_no_trailing_comma raw : ends_with ch_comma (trimmed raw) = false.
Proof. apply rstrip_by_ends_with. Qed.

Lemma split_not_nil sep s : Py.split sep s <> [].
Proof.
  destruct s as [|a r]; simpl; [discriminate |].
  destruct (Ascii.eqb a sep); [discriminate |].
  destruct (Py.split sep r); discriminate.
Qed.

Lemma join_split sep s : Py.join sep (Py.split sep s) = s.
Proof.
  induction s as [|a r IH]; [reflexivity |]. simpl Py.split.
  pose proof (split_not_nil sep r) as Hne.
  destruct (Ascii.eqb_spec a sep) as [->|Hsep].
  - destruct (Py.split sep r) as [|h t]; [congruence |].
    change (Py.join sep (EmptyString :: h :: t))
      with (String sep (Py.join sep (h :: t))).
    now rewrite IH.
  - destruct (Py.split sep r) as [|h t]; [congruence |].
    destruct t as [|h' t]; simpl in *; now rewrite <- IH.
Qed.

(** What the dict branch passes on as [data] ends with a comma only if the
    line does. *)
Lemma data_ends_with c line :
  ends_with c line = false ->
  ends_with c (Py.join ch_equals (tl (Py.split ch_equals line))) = false.
Proof.
  induction line as [|a r IH]; intros Hline; [reflexivity |]. simpl Py.split.
  assert (Hr : r = EmptyString \/ ends_with c r = false).
  { destruct r; [now left | right; exact Hline]. }
  destruct (Ascii.eqb a ch_equals).
  - simpl tl. rewrite join_split. now destruct Hr as [->|].
  - pose proof (split_not_nil ch_equals r) as Hne.
    destruct Hr as [->|Hr]; [reflexivity |]. specialize (IH Hr).
    destruct (Py.split ch_equals r) as [|h t]; [congruence | exact IH].
Qed.

Lemma bind_ext {A B} (m1 m2 : M A) (k1 k2 : A -> M B) st :
  m1 st = m2 st -> (forall a st', k1 a st' = k2 a st') ->
  bind m1 k1 st = bind m2 k2 st.
Proof.
  intros Hm Hk. unfold bind. rewrite Hm.
  destruct (m2 st) as [[a st']| | |]; auto.
Qed.

Section SameTrimmedLines.

Variables lines1 lines2 : list string.
Hypothesis same_trimmed : trimmed <$> lines1 = trimmed <$> lines2.

Lemma get_next_line_same st : get_next_line lines1 st = get_next_line lines2 st.
Proof.
  unfold get_next_line.
  assert (H : trimmed <$> lines1 !! counter st = trimmed <$> lines2 !! counter st)
    by now rewrite <- !list_lookup_fmap, same_trimmed.
  destruct (lines1 !! counter st), (lines2 !! counter st); simpl in H;
    congruence.
Qed.

Variables rec1 rec2 : M value.
Hypothesis same_rec : forall st, rec1 st = rec2 st.

Lemma seq_item_same line return_data next_element st :
  seq_item rec1 line return_data next_element st =
  seq_item rec2 line return_data next_element st.
Proof.
  unfold seq_item. destruct (Py.contains ch_lbrace line); [| reflexivity].
  apply bind_ext; [reflexivity |]. intros [rd ne] st'.
  apply bind_ext; [apply same_rec | reflexivity].
Qed.

Lemma map_item_same line return_data st :
  map_item rec1 line return_data st = map_item rec2 line return_data st.
Proof.
  unfold map_item. destruct (Py.contains ch_equals line); [| reflexivity].
  apply bind_ext; [| reflexivity].
  destruct (String.eqb _ _); [apply same_rec | reflexivity].
Qed.

Lemma seq_loop_same fuel : forall line return_data next_element st,
  seq_loop lines1 rec1 fuel line return_data next_element st =
  seq_loop lines2 rec2 fuel line return_data next_element st.
Proof.
  induction fuel as [|fuel IH]; intros line return_data next_element st;
    [reflexivity |]. simpl.
  destruct (Py.contains ch_rbrace line); [reflexivity |].
  apply bind_ext; [apply seq_item_same |]. intros [rd ne] st1.
  apply bind_ext; [apply get_next_line_same |]. intros line' st2.
  destruct (String.eqb line' EmptyString); [reflexivity | apply IH].
Qed.

Lemma map_loop_same fuel : forall line return_data st,
  map_loop lines1 rec1 fuel line return_data st =
  map_loop lines2 rec2 fuel line return_data st.
Proof.
  induction fuel as [|fuel IH]; intros line return_data st; [reflexivity |]. simpl.
  destruct (Py.contains ch_rbrace line); [reflexivity |].
  apply bind_ext; [apply map_item_same |]. intros rd st1.
  apply bind_ext; [apply get_next_line_same |]. intros line' st2. apply IH.
Qed.

End SameTrimmedLines.

Lemma map_reader_same lines1 lines2 fuel :
  trimmed <$> lines1 = trimmed <$> lines2 ->
  forall st, _map_reader lines1 fuel st = _map_reader lines2 fuel st.
Proof.
  intros Hsame. induction fuel as [|fuel IH]; intros st; [reflexivity |]. simpl.
  apply bind_ext; [now apply get_next_line_same |]. intros line st1.
  destruct (negb _).
  - now apply seq_loop_same.
  - now apply map_loop_same.
Qed.

Lemma lstrip_by_decompose p s :
  exists l, s = l +:+ Py.lstrip_by p s /\ all_chars p l = true.
Proof.
  induction s as [|a r (l & Hl & Hp)]; [now exists EmptyString |].
  cbn [Py.lstrip_by]. destruct (p a) eqn:Ha.
  - exists (String a l). split.
    + change (String a l +:+ Py.lstrip_by p r) with (String a (l +:+ Py.lstrip_by p r)).
      now rewrite <- Hl.
    + simpl. now rewrite Ha.
  - now exists EmptyString.
Qed.

Lemma lstrip_by_first p s c :
  first_char (Py.lstrip_by p s) = Some c -> p c = false.
Proof.
  induction s as [|a r IH]; [discriminate |]. cbn [Py.lstrip_by].
  destruct (p a) eqn:Ha; [exact IH |]. now intros [= <-].
Qed.

Lemma rstrip_by_decompose p s :
  exists r, s = Py.rstrip_by p s +:+ r /\ all_chars p r = true.
Proof.
  induction s as [|a s (r & Hr & Hp)]; [now exists EmptyString |].
  cbn [Py.rstrip_by]. destruct (Py.rstrip_by p s) as [|b t].
  - change (EmptyString +:+ r) with r in Hr. subst r.
    destruct (p a) eqn:Ha.
    + exists (String a s). split; [reflexivity | simpl; now rewrite Ha].
    + exists s. now split.
  - exists r. split; [| exact Hp].
    change (String a (String b t) +:+ r) with (String a (String b t +:+ r)).
    now rewrite <- Hr.
Qed.

Lemma rstrip_by_last p s c :
  last_char (Py.rstrip_by p s) = Some c -> p c = false.
Proof.
  induction s as [|a s IH]; [discriminate |]. cbn [Py.rstrip_by].
  destruct (Py.rstrip_by p s) as [|b t].
  - destruct (p a) eqn:Ha; [discriminate |]. now intros [= <-].
  - exact IH.
Qed.

Lemma rstrip_by_first p s c :
  first_char (Py.rstrip_by p s) = Some c -> first_char s = Some c.
Proof.
  destruct s as [|a s]; [discriminate |]. cbn [Py.rstrip_by].
  destruct (Py.rstrip_by p s); [destruct (p a); [discriminate |] |]; now intros [= <-].
Qed.

(** What [strip] and [rstrip(",")] take away, and no more. *)
Lemma trimmed_decompose raw :
  exists ws1 commas ws2,
    raw = ws1 +:+ (trimmed raw +:+ commas) +:+ ws2 /\
    Py.strip raw = trimmed raw +:+ commas /\
    all_chars Py.isspace ws1 = true /\
    all_chars (Ascii.eqb ch_comma) commas = true /\
    all_chars Py.isspace ws2 = true.
Proof.
  destruct (lstrip_by_decompose Py.isspace raw) as (ws1 & Hraw & Hws1).
  destruct (rstrip_by_decompose Py.isspace (Py.lstrip_by Py.isspace raw))
    as (ws2 & Hl & Hws2).
  destruct (rstrip_by_decompose (Ascii.eqb ch_comma) (Py.strip raw))
    as (commas & Hs & Hcommas).
  exists ws1, commas, ws2. repeat split; try assumption.
  fold (Py.strip raw) in Hl. fold (Py.rstrip_comma (Py.strip raw)) in Hs.
  fold (trimmed raw) in Hs. now rewrite <- Hs, <- Hl.
Qed.

(** A list unit of one scalar line: the element is coerced from the
    trimmed line. *)
Lemma list_unit_of_one_line parsed_map fuel st raw raw2 v :
  parsed_map !! counter st = Some raw ->
  parsed_map !! S (counter st) = Some raw2 ->
  Py.contains ch_equals (trimmed raw) = false ->
  Py.contains ch_lbrace (trimmed raw) = false ->
  Py.contains ch_rbrace (trimmed raw) = false ->
  change_data_type (trimmed raw) = Some v ->
  Py.contains ch_rbrace (trimmed raw2) = true ->
  _map_reader parsed_map (S (S (S fuel))) st =
    Ok (VList [v],
        mkState (S (S (counter st))) ((reads st ++ [counter st]) ++ [S (counter st)])
          (stdout st)).
Proof.
  intros Hraw Hraw2 Heq Hopen Hclose Hv Hclose2.
  rewrite map_reader_unfold. unfold bind at 1, get_next_line. rewrite Hraw, Heq.
  change (negb false) with true. cbv iota.
  rewrite seq_loop_unfold, Hclose. unfold bind at 1.
  rewrite (seq_item_scalar _ _ _ _ _ v Hopen Hv).
  unfold bind at 1, get_next_line. simpl counter. rewrite Hraw2.
  rewrite (contains_not_eq ch_rbrace (trimmed raw2) EmptyString Hclose2 eq_refl).
  rewrite seq_loop_unfold, Hclose2. reflexivity.
Qed.

(** C10 — [_map_reader] sees a line of [self.parsed_map] only as
    [get_next_line] returns it: stripped of surrounding whitespace, then
    of its trailing commas.  Two line lists with the same trimmed lines are
    read alike; a trimmed line never ends with a comma; and the key and the
    data of a dict line are the parts of the trimmed line around its first
    [=], so the data (and a list element, which is the whole line) never
    ends with the separating comma either.  What [get_next_line] hands
    over for the line [raw] under the counter is [trimmed raw] (an
    [IndexError] when there is no such line), and a call of
    [_map_reader] decides on list or dict, and enters its loop, with this
    line.  [trimmed raw] is [raw] less a longest run of whitespace at
    either end and then less a longest run of commas at the end: nothing
    else is taken away, the stripped line neither starts nor ends with
    whitespace, and the trimmed line does not end with a comma.  So the
    element of a list unit of one scalar line is coerced from that line
    without its indentation and its comma. *)
Theorem lines_trimmed_before_use :
  (forall lines1 lines2 fuel st,
     trimmed <$> lines1 = trimmed <$> lines2 ->
     _map_reader lines1 fuel st = _map_reader lines2 fuel st) /\
  (forall raw, trimmed raw = Py.rstrip_comma (Py.strip raw) /\
               ends_with ch_comma (trimmed raw) = false) /\
  (forall raw,
     let parts := Py.split ch_equals (trimmed raw) in
     Py.join ch_equals (hd EmptyString parts :: tl parts) = trimmed raw /\
     ends_with ch_comma (Py.join ch_equals (tl parts)) = false) /\
  (forall parsed_map st,
     get_next_line parsed_map st =
       match parsed_map !! counter st with
       | Some raw =>
           Ok (trimmed raw,
               mkState (S (counter st)) (reads st ++ [counter st]) (stdout st))
       | None => IndexError
       end) /\
  (forall parsed_map fuel st,
     _map_reader parsed_map (S fuel) st =
       match parsed_map !! counter st with
       | Some raw =>
           (if negb (Py.contains ch_equals (trimmed raw)) then
              seq_loop parsed_map (_map_reader parsed_map fuel) fuel (trimmed raw) [] 0
            else
              map_loop parsed_map (_map_reader parsed_map fuel) fuel (trimmed raw) ∅)
             (mkState (S (counter st)) (reads st ++ [counter st]) (stdout st))
       | None => IndexError
       end) /\
  (forall raw,
     (exists ws1 commas ws2,
        raw = ws1 +:+ (trimmed raw +:+ commas) +:+ ws2 /\
        Py.strip raw = trimmed raw +:+ commas /\
        all_chars Py.isspace ws1 = true /\
        all_chars (Ascii.eqb ch_comma) commas = true /\
        all_chars Py.isspace ws2 = true) /\
     (forall c, first_char (Py.strip raw) = Some c -> Py.isspace c = false) /\
     (forall c, last_char (Py.strip raw) = Some c -> Py.isspace c = false) /\
     (forall c, last_char (trimmed raw) = Some c -> c <> ch_comma)) /\
  (forall parsed_map fuel st raw raw2 v,
     parsed_map !! counter st = Some raw ->
     parsed_map !! S (counter st) = Some raw2 ->
     Py.contains ch_equals (trimmed raw) = false ->
     Py.contains ch_lbrace (trimmed raw) = false ->
     Py.contains ch_rbrace (trimmed raw) = false ->
     change_data_type (trimmed raw) = Some v ->
     Py.contains ch_rbrace (trimmed raw2) = true ->
     _map_reader parsed_map (S (S (S fuel))) st =
       Ok (VList [v],
           mkState (S (S (counter st))) ((reads st ++ [counter st]) ++ [S (counter st)])
             (stdout st))).
Proof.
  split; [| split; [| split; [| split; [| split; [| split]]]]].
  - intros lines1 lines2 fuel st Hsame. now apply map_reader_same.
  - intros raw. split; [reflexivity | apply trimmed_no_trailing_comma].
  - intros raw parts. split.
    + subst parts. pose proof (split_not_nil ch_equals (trimmed raw)) as Hne.
      pose proof (join_split ch_equals (trimmed raw)) as Hjoin.
      destruct (Py.split ch_equals (trimmed raw)); [congruence | exact Hjoin].
    + apply data_ends_with, trimmed_no_trailing_comma.
  - reflexivity.
  - intros parsed_map fuel st. rewrite map_reader_unfold.
    unfold bind at 1, get_next_line.
    now destruct (parsed_map !! counter st).
  - intros raw. split; [apply trimmed_decompose | split; [| split]].
    + intros c Hc. apply rstrip_by_first in Hc.
      now apply lstrip_by_first in Hc.
    + intros c Hc. now apply rstrip_by_last in Hc.
    + intros c Hc ->. apply rstrip_by_last in Hc.
      now rewrite Ascii.eqb_refl in Hc.
  - apply list_unit_of_one_line.
Qed.

Lemma lines_trimmed_before_use_witness :
  _map_reader (_raw_map_to_list "{a=1,b={2,3}}") 9 init_state =
    _map_reader ["{"; "a=1"; "b={"; "2"; "3"; "}"; "}"] 9 init_state /\
  Py.isspace "a" = false /\
  " "%char <> ch_comma /\
  _map_reader ["{"; str1 ch_tab +:+ "7 ,,"; "},"] 3 init_state =
    Ok (VList [VInt 7], mkState 3 [1; 2] []).
Proof.
  destruct lines_trimmed_before_use as (Hsame & _ & _ & _ & _ & Htrim & Hunit).
  split; [| split; [| split]].
  - exact (Hsame (_raw_map_to_list "{a=1,b={2,3}}")
             ["{"; "a=1"; "b={"; "2"; "3"; "}"; "}"] 9 init_state eq_refl).
  - exact (proj1 (proj2 (Htrim (str1 ch_tab +:+ "a ,,"))) "a"%char eq_refl).
  - exact (proj2 (proj2 (proj2 (Htrim (str1 ch_tab +:+ "a ,,")))) " "%char eq_refl).
  - exact (Hunit ["{"; str1 ch_tab +:+ "7 ,,"; "},"] 0 init_state
             (str1 ch_tab +:+ "7 ,,") "}," (VInt 7)
             eq_refl eq_refl eq_refl eq_refl eq_refl eq_refl eq_refl).
Defined.

(** ** [int] reads back what [str] prints *)

Lemma all_chars_mono (p q : ascii -> bool) s :
  (forall c, p c = true -> q c = true) -> all_chars p s = true -> all_chars q s = true.
Proof.
  intros Hpq. induction s as [|a r IH]; simpl; [reflexivity |].
  rewrite !andb_true_iff. intros [Ha Hr]. auto.
Qed.

Lemma all_chars_contains p c s :
  all_chars p s = true -> p c = false -> Py.contains c s = false.
Proof.
  intros Hs Hc. induction s as [|a r IH]; simpl in *; [reflexivity |].
  apply andb_true_iff in Hs as [Ha Hr]. rewrite (IH Hr), orb_false_r.
  destruct (Ascii.eqb_spec a c) as [->|]; congruence.
Qed.

Lemma all_chars_not_eq p s t :
  all_chars p s = true -> all_chars p t = false -> String.eqb s t = false.
Proof.
  intros Hs Ht. destruct (String.eqb_spec s t) as [->|]; [congruence | reflexivity].
Qed.

Lemma rstrip_by_none p s :
  all_chars (fun c => negb (p c)) s = true -> Py.rstrip_by p s = s.
Proof.
  induction s as [|a r IH]; simpl; [reflexivity |].
  rewrite andb_true_iff, negb_true_iff. intros [Ha Hr].
  rewrite (IH Hr), Ha. now destruct r.
Qed.

Lemma lstrip_by_none p s :
  all_chars (fun c => negb (p c)) s = true -> Py.lstrip_by p s = s.
Proof.
  destruct s as [|a r]; simpl; [reflexivity |].
  rewrite andb_true_iff, negb_true_iff. now intros [-> _].
Qed.

Lemma num_strip_none s :
  all_chars (fun c => negb (Py.num_space c)) s = true -> Py.num_strip s = s.
Proof.
  intros Hs. unfold Py.num_strip. now rewrite (lstrip_by_none _ _ Hs), rstrip_by_none.
Qed.

Lemma sign_or_digit_not_space c : sign_or_digit c = true -> negb (Py.num_space c) = true.
Proof.
  destruct c as [[|] [|] [|] [|] [|] [|] [|] [|]]; vm_compute; congruence.
Qed.

Lemma string_of_uint_digits d : all_chars Py.is_digit (NilEmpty.string_of_uint d) = true.
Proof. induction d; simpl; auto. Qed.

Lemma str_int_chars n : all_chars sign_or_digit (Py.str_int n) = true.
Proof.
  assert (Hu : forall d, all_chars sign_or_digit (NilZero.string_of_uint d) = true).
  { intros d. apply (all_chars_mono Py.is_digit).
    - intros c Hc. unfold sign_or_digit. now rewrite Hc.
    - destruct d; try apply string_of_uint_digits. reflexivity. }
  unfold Py.str_int. destruct (Z.to_int n); simpl; auto.
Qed.

Ltac eval_is_digit :=
  repeat match goal with
  | |- context [Py.is_digit ?c] =>
      let b := eval vm_compute in (Py.is_digit c) in
      change (Py.is_digit c) with b
  | |- context [Py.digit_val ?c] =>
      let v := eval vm_compute in (Py.digit_val c) in
      change (Py.digit_val c) with v
  end; cbv iota.

Lemma int_digits_of_uint_acc d : forall acc,
  Py.int_digits (Zpos acc) (NilEmpty.string_of_uint d) = Some (Zpos (Pos.of_uint_acc d acc)).
Proof.
  induction d; intros acc; simpl NilEmpty.string_of_uint; simpl Pos.of_uint_acc;
    [reflexivity | ..];
    cbn [Py.int_digits]; eval_is_digit; rewrite <- IHd; f_equal; lia.
Qed.

Lemma int_digits_of_uint d :
  Py.int_digits 0 (NilEmpty.string_of_uint d) = Some (Z.of_N (Pos.of_uint d)).
Proof.
  induction d; simpl NilEmpty.string_of_uint; simpl Pos.of_uint;
    [reflexivity | ..];
    cbn [Py.int_digits]; eval_is_digit;
    [exact IHd | apply (int_digits_of_uint_acc d) ..].
Qed.

Lemma unsigned_int_of_uint d :
  d <> Decimal.Nil ->
  Py.unsigned_int (NilEmpty.string_of_uint d) = Some (Z.of_N (Pos.of_uint d)).
Proof.
  intros Hd. rewrite <- int_digits_of_uint. now destruct d.
Qed.

Lemma unsigned_int_pos p :
  Py.unsigned_int (NilZero.string_of_uint (Pos.to_uint p)) = Some (Zpos p).
Proof.
  pose proof (DecimalPos.Unsigned.to_uint_nonnil p) as Hne.
  replace (NilZero.string_of_uint (Pos.to_uint p))
    with (NilEmpty.string_of_uint (Pos.to_uint p))
    by (now destruct (Pos.to_uint p)).
  now rewrite (unsigned_int_of_uint _ Hne), DecimalPos.Unsigned.of_to.
Qed.

(** [int(str(n)) == n]. *)
Lemma int_str_int n : Py.int (Py.str_int n) = Some n.
Proof.
  unfold Py.int.
  rewrite num_strip_none
    by (apply (all_chars_mono sign_or_digit);
        [apply sign_or_digit_not_space | apply str_int_chars]).
  unfold Py.str_int. destruct n as [|p|p]; simpl Z.to_int; simpl NilZero.string_of_int.
  - reflexivity.
  - pose proof (unsigned_int_pos p) as Hp.
    pose proof (string_of_uint_digits (Pos.to_uint p)) as Hd.
    pose proof (DecimalPos.Unsigned.to_uint_nonnil p) as Hne.
    replace (NilZero.string_of_uint (Pos.to_uint p))
      with (NilEmpty.string_of_uint (Pos.to_uint p)) in *
      by (now destruct (Pos.to_uint p)).
    destruct (NilEmpty.string_of_uint (Pos.to_uint p)) as [|c r] eqn:E;
      [now destruct (Pos.to_uint p) |].
    simpl in Hd. apply andb_true_iff in Hd as [Hc _].
    assert (Hs : sign_or_digit c = true) by (unfold sign_or_digit; now rewrite Hc).
    destruct (Ascii.eqb_spec c "-") as [->|_]; [discriminate |].
    destruct (Ascii.eqb_spec c "+") as [->|_]; [discriminate |].
    exact Hp.
  - change (Ascii.eqb "-" "-") with true. cbv iota.
    now rewrite unsigned_int_pos.
Qed.

Lemma change_data_type_str_int n : change_data_type (Py.str_int n) = Some (VInt n).
Proof.
  pose proof (str_int_chars n) as Hchars. pose proof (int_str_int n) as Hint.
  unfold change_data_type.
  destruct (String.eqb_spec (Py.str_int n) EmptyString) as [E|_];
    [rewrite E in Hint; discriminate |].
  rewrite !(all_chars_not_eq sign_or_digit (Py.str_int n)) by (exact Hchars || reflexivity).
  rewrite !(all_chars_contains sign_or_digit) by (exact Hchars || reflexivity).
  now rewrite Hint.
Qed.

(** * Further properties *)

(** ** The reformatted text *)

Lemma append_cons c s t : String c s +:+ t = String c (s +:+ t).
Proof. reflexivity. Qed.

Lemma append_nil_right s : s +:+ EmptyString = s.
Proof.
  induction s as [|c s IH]; [reflexivity | now rewrite append_cons, IH].
Qed.

Lemma append_assoc_str a b c : (a +:+ b) +:+ c = a +:+ (b +:+ c).
Proof.
  induction a as [|x a IH]; [reflexivity | now rewrite !append_cons, IH].
Qed.

Lemma count_char_app c a b : count_char c (a +:+ b) = count_char c a + count_char c b.
Proof.
  induction a as [|x a IH]; [reflexivity |].
  rewrite append_cons. simpl. rewrite IH. lia.
Qed.

Lemma without_layout_app a b :
  without_layout (a +:+ b) = without_layout a +:+ without_layout b.
Proof.
  induction a as [|x a IH]; [reflexivity |].
  rewrite append_cons. simpl.
  destruct (Ascii.eqb x ch_newline || Ascii.eqb x ch_tab);
    rewrite ?append_cons; now rewrite IH.
Qed.

Lemma repeat_char_tab_layout n :
  without_layout (Py.repeat_char ch_tab n) = EmptyString /\
  count_char ch_newline (Py.repeat_char ch_tab n) = 0.
Proof.
  unfold Py.repeat_char. induction (Z.to_nat n) as [|k [IH1 IH2]]; simpl; auto.
Qed.

Lemma newline_indent_layout n :
  without_layout (newline_indent n) = EmptyString /\
  count_char ch_newline (newline_indent n) = 1.
Proof.
  unfold newline_indent. destruct (repeat_char_tab_layout n) as [H1 H2].
  simpl. now rewrite H1, H2.
Qed.

Ltac case_char ch :=
  destruct (Ascii.eqb_spec ch ch_lbrace) as [->|?];
  [| destruct (Ascii.eqb_spec ch ch_comma) as [->|?];
     [| destruct (Ascii.eqb_spec ch ch_rbrace) as [->|?];
        [| destruct (Ascii.eqb_spec ch ch_newline) as [->|?] ] ] ].

Lemma prep_step_without_layout p ch :
  without_layout (extended_map (prep_step p ch)) =
  without_layout (extended_map p) +:+ without_layout (str1 ch).
Proof.
  unfold prep_step.
  case_char ch; simpl extended_map;
    rewrite ?without_layout_app, ?(proj1 (newline_indent_layout _));
    try reflexivity.
  - destruct (in_quote p); rewrite ?(proj1 (newline_indent_layout _)); reflexivity.
Qed.

Lemma prep_run_without_layout data : forall p,
  without_layout (extended_map (prep_run p data)) =
  without_layout (extended_map p) +:+ without_layout data.
Proof.
  induction data as [|c data IH]; intros p.
  - change (prep_run p EmptyString) with p. now rewrite append_nil_right.
  - rewrite prep_run_cons, IH, prep_step_without_layout, append_assoc_str.
    f_equal. simpl.
    destruct (Ascii.eqb c ch_newline || Ascii.eqb c ch_tab); reflexivity.
Qed.

(** X1 — [_raw_map_to_list] only adds layout: the lines, joined again
    and cleared of newlines and tabs, are the raw text cleared of its
    newlines and tabs.  No other character is added, dropped or moved. *)
Theorem reformatting_keeps_the_text data :
  without_layout (Py.join ch_newline (_raw_map_to_list data)) = without_layout data.
Proof.
  unfold _raw_map_to_list, extended_text.
  now rewrite join_split, prep_run_without_layout.
Qed.

Lemma split_length sep s : length (Py.split sep s) = S (count_char sep s).
Proof.
  induction s as [|a r IH]; simpl; [reflexivity |].
  destruct (Ascii.eqb a sep); simpl; [now rewrite IH |].
  destruct (Py.split sep r); simpl in *; lia.
Qed.

Lemma prep_step_newlines p ch :
  count_char ch_newline (extended_map (prep_step p ch)) =
  count_char ch_newline (extended_map p)
  + count_char ch_lbrace (str1 ch) + count_char ch_rbrace (str1 ch)
  + count_char ch_newline (str1 ch) + unquoted_commas (in_quote p) (str1 ch).
Proof.
  unfold prep_step.
  case_char ch; simpl extended_map;
    rewrite ?count_char_app, ?(proj2 (newline_indent_layout _)).
  - simpl. lia.
  - destruct (in_quote p); rewrite ?(proj2 (newline_indent_layout _)); simpl; lia.
  - simpl. lia.
  - simpl. lia.
  - simpl.
    rewrite (proj2 (Ascii.eqb_neq ch ch_lbrace)), (proj2 (Ascii.eqb_neq ch ch_rbrace)),
      (proj2 (Ascii.eqb_neq ch ch_newline)), (proj2 (Ascii.eqb_neq ch ch_comma))
      by assumption.
    simpl. lia.
Qed.

Lemma prep_run_newlines data : forall p,
  count_char ch_newline (extended_map (prep_run p data)) =
  count_char ch_newline (extended_map p)
  + count_char ch_lbrace data + count_char ch_rbrace data
  + count_char ch_newline data + unquoted_commas (in_quote p) data.
Proof.
  induction data as [|c data IH]; intros p.
  - change (prep_run p EmptyString) with p. simpl. lia.
  - rewrite prep_run_cons, IH, prep_step_newlines, prep_step_in_quote.
    simpl. lia.
Qed.

(** X2 — The number of lines of [self.parsed_map]: one, plus one for
    every brace of the raw text (inside quotes or not), for every comma
    outside quotes and for every newline the raw text holds itself. *)
Theorem number_of_lines data :
  length (_raw_map_to_list data) =
    1 + count_char ch_lbrace data + count_char ch_rbrace data
    + unquoted_commas false data + count_char ch_newline data.
Proof.
  unfold _raw_map_to_list, extended_text.
  rewrite split_length, prep_run_newlines. simpl. lia.
Qed.

(** ** Texts without structure *)

Lemma prep_step_plain p ch :
  plain_char ch = true ->
  extended_map (prep_step p ch) = extended_map p +:+ str1 ch.
Proof.
  unfold plain_char, prep_step. rewrite negb_true_iff, !orb_false_iff.
  intros [[[-> ->] ->] _]. reflexivity.
Qed.

Lemma prep_run_plain data : forall p,
  all_chars plain_char data = true ->
  extended_map (prep_run p data) = extended_map p +:+ data.
Proof.
  induction data as [|c data IH]; intros p Hplain.
  - change (prep_run p EmptyString) with p. now rewrite append_nil_right.
  - simpl in Hplain. apply andb_true_iff in Hplain as [Hc Hdata].
    now rewrite prep_run_cons, (IH _ Hdata), (prep_step_plain _ _ Hc),
      append_assoc_str.
Qed.

Lemma split_without_sep sep s : Py.contains sep s = false -> Py.split sep s = [s].
Proof.
  induction s as [|a r IH]; simpl; [reflexivity |].
  rewrite orb_false_iff. intros [-> Hr]. now rewrite (IH Hr).
Qed.

Lemma plain_no_newline data :
  all_chars plain_char data = true -> Py.contains ch_newline data = false.
Proof.
  intros Hplain. apply (all_chars_contains plain_char); [exact Hplain | reflexivity].
Qed.

(** X3 — A raw text with no brace, no comma and no newline (the empty
    file among them) stays one line, and the first read, at index 1, is out
    of range: [Loader] raises [IndexError]. *)
Theorem text_without_structure_raises data :
  all_chars plain_char data = true ->
  _raw_map_to_list data = [data] /\ Loader data = IndexError.
Proof.
  intros Hplain.
  assert (Hlines : _raw_map_to_list data = [data]).
  { unfold _raw_map_to_list, extended_text.
    rewrite (prep_run_plain _ _ Hplain). simpl extended_map.
    apply split_without_sep, plain_no_newline, Hplain. }
  split; [exact Hlines |]. unfold Loader. now rewrite Hlines.
Qed.

Lemma text_without_structure_raises_witness :
  _raw_map_to_list "a=1" = ["a=1"] /\ Loader "a=1" = IndexError.
Proof. exact (text_without_structure_raises "a=1" eq_refl). Defined.

(** ** Texts without a closing brace *)

Lemma count_char_contains c s : count_char c s = 0 <-> Py.contains c s = false.
Proof.
  induction s as [|a r IH]; simpl; [tauto |].
  destruct (Ascii.eqb a c); simpl; [split; [lia | discriminate] | exact IH].
Qed.

Lemma count_char_without_layout c s :
  Ascii.eqb c ch_newline = false -> Ascii.eqb c ch_tab = false ->
  count_char c (without_layout s) = count_char c s.
Proof.
  intros Hn Ht. rewrite Ascii.eqb_sym in Hn. rewrite Ascii.eqb_sym in Ht.
  induction s as [|a r IH]; [reflexivity |]. cbn [count_char without_layout].
  destruct (Ascii.eqb_spec a ch_newline) as [->|_]; [now rewrite Hn |].
  destruct (Ascii.eqb_spec a ch_tab) as [->|_]; [now rewrite Ht |].
  cbn [orb count_char]. now rewrite IH.
Qed.

(** A character other than newline and tab occurs in the reformatted text
    as often as in the raw text. *)
Lemma extended_text_count c data :
  Ascii.eqb c ch_newline = false -> Ascii.eqb c ch_tab = false ->
  count_char c (extended_text data) = count_char c data.
Proof.
  intros Hn Ht. unfold extended_text.
  rewrite <- (count_char_without_layout c (extended_map _)) by assumption.
  rewrite prep_run_without_layout. simpl.
  now apply count_char_without_layout.
Qed.

Lemma split_contains c sep s :
  Py.contains c s = false -> Forall (fun l => Py.contains c l = false) (Py.split sep s).
Proof.
  induction s as [|a r IH]; simpl; [now repeat constructor |].
  rewrite orb_false_iff. intros [Ha Hr]. specialize (IH Hr).
  destruct (Ascii.eqb a sep); [now constructor |].
  destruct (Py.split sep r) as [|h t]; [now repeat constructor; simpl; rewrite Ha |].
  apply Forall_cons in IH as [Hh Ht]. constructor; [| exact Ht].
  simpl. now rewrite Ha, Hh.
Qed.

Lemma lstrip_by_contains c p s :
  Py.contains c s = false -> Py.contains c (Py.lstrip_by p s) = false.
Proof.
  induction s as [|a r IH]; simpl; [reflexivity |].
  rewrite orb_false_iff. intros [Ha Hr].
  destruct (p a); [now apply IH | simpl; now rewrite Ha, Hr].
Qed.

Lemma rstrip_by_contains c p s :
  Py.contains c s = false -> Py.contains c (Py.rstrip_by p s) = false.
Proof.
  induction s as [|a r IH]; simpl; [reflexivity |].
  rewrite orb_false_iff. intros [Ha Hr]. specialize (IH Hr).
  destruct (Py.rstrip_by p r) as [|b r'].
  - destruct (p a); simpl; [reflexivity | now rewrite Ha].
  - simpl in *. now rewrite Ha, IH.
Qed.

Lemma trimmed_contains c raw :
  Py.contains c raw = false -> Py.contains c (trimmed raw) = false.
Proof.
  intros H. unfold trimmed, Py.rstrip_comma, Py.strip.
  now apply rstrip_by_contains, rstrip_by_contains, lstrip_by_contains.
Qed.

Lemma lines_without c data :
  Ascii.eqb c ch_newline = false -> Ascii.eqb c ch_tab = false ->
  Py.contains c data = false ->
  Forall (fun raw => Py.contains c (trimmed raw) = false) (_raw_map_to_list data).
Proof.
  intros Hn Ht Hc. unfold _raw_map_to_list.
  eapply Forall_impl; [apply split_contains | intros raw; apply trimmed_contains].
  apply count_char_contains. rewrite extended_text_count by assumption.
  now apply count_char_contains.
Qed.

(** X4 — Unbalanced text: when the raw text holds no closing brace at
    all, [Loader] can return in one way only, through the empty-line exit:
    its value is then the empty list and [unexpected_eof] is the last line
    printed.  In every other case it raises. *)
Theorem no_closing_brace_no_value data v st :
  Py.contains ch_rbrace data = false ->
  Loader data = Ok (v, st) ->
  v = VList [] /\ last (stdout st) = Some unexpected_eof.
Proof.
  intros Hbrace Hrun. unfold Loader in Hrun.
  destruct (post_ok _ _ _ _ _ (map_reader_end _ _ _) Hrun) as (raw & Hraw & Hend).
  destruct Hend as [Hclose|(_ & Hv & Hout & _)]; [| now split].
  pose proof (lines_without ch_rbrace data eq_refl eq_refl Hbrace) as Hlines.
  rewrite Forall_lookup in Hlines. rewrite (Hlines _ _ Hraw) in Hclose.
  discriminate.
Qed.

Lemma no_closing_brace_no_value_witness :
  VList [] = VList [] /\ last [unexpected_eof] = Some unexpected_eof.
Proof.
  exact (no_closing_brace_no_value "{1,2," (VList [])
           (mkState 4 [1; 2; 3] [unexpected_eof]) eq_refl eq_refl).
Defined.

(** ** Termination *)

(** [bind] when the first computation has not run out of fuel. *)
Lemma bind_more {A B} (m1 m2 : M A) (k1 k2 : A -> M B) st :
  bind m1 k1 st <> OutOfFuel ->
  (m1 st <> OutOfFuel -> m2 st = m1 st) ->
  (forall a st', m1 st = Ok (a, st') -> k1 a st' <> OutOfFuel -> k2 a st' = k1 a st') ->
  bind m2 k2 st = bind m1 k1 st.
Proof.
  unfold bind. intros Hrun Hm Hk.
  destruct (m1 st) as [[a st']| | |] eqn:E; try congruence;
    rewrite Hm by discriminate; auto.
Qed.

Section MoreFuel.

Variable parsed_map : list string.
Variables rec1 rec2 : M value.
Hypothesis rec_more : forall st, rec1 st <> OutOfFuel -> rec2 st = rec1 st.

Lemma seq_item_more line return_data next_element st :
  seq_item rec1 line return_data next_element st <> OutOfFuel ->
  seq_item rec2 line return_data next_element st =
  seq_item rec1 line return_data next_element st.
Proof.
  unfold seq_item. destruct (Py.contains ch_lbrace line); [| reflexivity].
  intros Hrun. apply bind_more; [exact Hrun | reflexivity |].
  intros [rd ne] st' _ Hrun'. apply bind_more; [exact Hrun' | apply rec_more |].
  reflexivity.
Qed.

Lemma map_item_more line return_data st :
  map_item rec1 line return_data st <> OutOfFuel ->
  map_item rec2 line return_data st = map_item rec1 line return_data st.
Proof.
  unfold map_item. destruct (Py.contains ch_equals line); [| reflexivity].
  intros Hrun. apply bind_more; [exact Hrun | | reflexivity].
  destruct (String.eqb _ _); [apply rec_more | reflexivity].
Qed.

Lemma seq_loop_more fuel : forall line return_data next_element st,
  seq_loop parsed_map rec1 fuel line return_data next_element st <> OutOfFuel ->
  seq_loop parsed_map rec2 (S fuel) line return_data next_element st =
  seq_loop parsed_map rec1 fuel line return_data next_element st.
Proof.
  induction fuel as [|fuel IH]; intros line return_data next_element st Hrun;
    [now destruct Hrun |].
  rewrite (seq_loop_unfold _ rec2). rewrite seq_loop_unfold in Hrun |- *.
  destruct (Py.contains ch_rbrace line); [reflexivity |].
  apply bind_more; [exact Hrun | apply seq_item_more |].
  intros [rd ne] st1 _ Hrun1.
  apply bind_more; [exact Hrun1 | reflexivity |].
  intros line' st2 _ Hrun2.
  destruct (String.eqb line' EmptyString); [reflexivity | now apply IH].
Qed.

Lemma map_loop_more fuel : forall line return_data st,
  map_loop parsed_map rec1 fuel line return_data st <> OutOfFuel ->
  map_loop parsed_map rec2 (S fuel) line return_data st =
  map_loop parsed_map rec1 fuel line return_data st.
Proof.
  induction fuel as [|fuel IH]; intros line return_data st Hrun;
    [now destruct Hrun |].
  rewrite (map_loop_unfold _ rec2). rewrite map_loop_unfold in Hrun |- *.
  destruct (Py.contains ch_rbrace line); [reflexivity |].
  apply bind_more; [exact Hrun | apply map_item_more |].
  intros rd st1 _ Hrun1.
  apply bind_more; [exact Hrun1 | reflexivity |].
  intros line' st2 _ Hrun2. now apply IH.
Qed.

End MoreFuel.

Lemma map_reader_more parsed_map fuel : forall st,
  _map_reader parsed_map fuel st <> OutOfFuel ->
  _map_reader parsed_map (S fuel) st = _map_reader parsed_map fuel st.
Proof.
  induction fuel as [|fuel IH]; intros st Hrun; [now destruct Hrun |].
  rewrite (map_reader_unfold _ (S fuel)). rewrite map_reader_unfold in Hrun |- *.
  apply bind_more; [exact Hrun | reflexivity |].
  intros line st1 _ Hrun1.
  destruct (negb _).
  - now apply seq_loop_more.
  - now apply map_loop_more.
Qed.

Lemma map_reader_more_le parsed_map fuel fuel' st :
  fuel <= fuel' ->
  _map_reader parsed_map fuel st <> OutOfFuel ->
  _map_reader parsed_map fuel' st = _map_reader parsed_map fuel st.
Proof.
  intros Hle Hrun. induction Hle as [|fuel' Hle IH]; [reflexivity |].
  rewrite <- IH. apply map_reader_more. now rewrite IH.
Qed.

(** X5 — The model bounds the rounds of the loops and the depth of the
    recursion by one number and has no other limit.  In it [Loader]
    terminates on every text, with a value, an [IndexError] or a
    [ValueError]: every round of a loop and every call reads a line, so for
    a text of [n] lines the bound [n + 1] is never reached, and the outcome
    is the same under any larger bound.  The interpreter's own limit on the
    depth of recursion (1000 frames unless changed) is not modelled: on a
    text nested more deeply than that limit allows, Python raises
    [RecursionError], an outcome that this statement does not cover. *)
Theorem loader_terminates data :
  Loader data <> OutOfFuel /\
  forall fuel, length (_raw_map_to_list data) < fuel ->
    _map_reader (_raw_map_to_list data) fuel init_state = Loader data.
Proof.
  assert (Hrun : Loader data <> OutOfFuel)
    by (apply map_reader_fuel_enough; simpl; lia).
  split; [exact Hrun |]. intros fuel Hfuel.
  apply map_reader_more_le; [lia | exact Hrun].
Qed.

Lemma loader_terminates_witness :
  _map_reader (_raw_map_to_list "{a={1,2},b={x=1}}") 40 init_state =
  Loader "{a={1,2},b={x=1}}".
Proof.
  apply (proj2 (loader_terminates "{a={1,2},b={x=1}}") 40).
  vm_compute. lia.
Defined.

(** ** Lines below the counter *)

Lemma bind_ext_ok {A B} (m1 m2 : M A) (k1 k2 : A -> M B) st :
  m1 st = m2 st ->
  (forall a st', m2 st = Ok (a, st') -> k1 a st' = k2 a st') ->
  bind m1 k1 st = bind m2 k2 st.
Proof.
  intros Hm Hk. unfold bind. rewrite Hm.
  destruct (m2 st) as [[a st']| | |]; auto.
Qed.

Section SameLinesFrom.

Variables lines1 lines2 : list string.
Variable c : nat.
Hypothesis same_from :
  forall i, c <= i -> trimmed <$> lines1 !! i = trimmed <$> lines2 !! i.

Lemma get_next_line_from st :
  c <= counter st -> get_next_line lines1 st = get_next_line lines2 st.
Proof.
  intros Hc. unfold get_next_line. specialize (same_from _ Hc).
  destruct (lines1 !! counter st), (lines2 !! counter st); simpl in same_from;
    congruence.
Qed.

Variables rec1 rec2 : M value.
Hypothesis same_rec : forall st, c <= counter st -> rec1 st = rec2 st.
Hypothesis rec_consumes : consumes 1 rec2.

Lemma seq_item_from line return_data next_element st :
  c <= counter st ->
  seq_item rec1 line return_data next_element st =
  seq_item rec2 line return_data next_element st.
Proof.
  intros Hc. unfold seq_item. destruct (Py.contains ch_lbrace line); [| reflexivity].
  apply bind_ext_ok; [reflexivity |]. intros [rd ne] st' Hst'.
  assert (st' = st) as ->.
  { destruct (Py.contains ch_equals line); unfold bind, or_value_error, ret in Hst'.
    - destruct (Py.int _); now inversion Hst'.
    - now inversion Hst'. }
  apply bind_ext_ok; [now apply same_rec | reflexivity].
Qed.

Lemma map_item_from line return_data st :
  c <= counter st ->
  map_item rec1 line return_data st = map_item rec2 line return_data st.
Proof.
  intros Hc. unfold map_item. destruct (Py.contains ch_equals line); [| reflexivity].
  apply bind_ext_ok; [| reflexivity].
  destruct (String.eqb _ _); [now apply same_rec | reflexivity].
Qed.

Lemma seq_loop_from fuel : forall line return_data next_element st,
  c <= counter st ->
  seq_loop lines1 rec1 fuel line return_data next_element st =
  seq_loop lines2 rec2 fuel line return_data next_element st.
Proof.
  induction fuel as [|fuel IH]; intros line return_data next_element st Hc;
    [reflexivity |]. rewrite !seq_loop_unfold.
  destruct (Py.contains ch_rbrace line); [reflexivity |].
  apply bind_ext_ok; [now apply seq_item_from |]. intros [rd ne] st1 Hst1.
  destruct (post_ok _ _ _ _ _ (seq_item_consumes rec2 rec_consumes _ _ _ st) Hst1)
    as (n1 & _ & Hn1 & _).
  apply bind_ext_ok; [apply get_next_line_from; lia |]. intros line' st2 Hst2.
  destruct (post_ok _ _ _ _ _ (get_next_line_consumes lines2 st1) Hst2)
    as (n2 & _ & Hn2 & _).
  destruct (String.eqb line' EmptyString); [reflexivity | apply IH; lia].
Qed.

Lemma map_loop_from fuel : forall line return_data st,
  c <= counter st ->
  map_loop lines1 rec1 fuel line return_data st =
  map_loop lines2 rec2 fuel line return_data st.
Proof.
  induction fuel as [|fuel IH]; intros line return_data st Hc; [reflexivity |].
  rewrite !map_loop_unfold.
  destruct (Py.contains ch_rbrace line); [reflexivity |].
  apply bind_ext_ok; [now apply map_item_from |]. intros rd st1 Hst1.
  destruct (post_ok _ _ _ _ _ (map_item_consumes rec2 rec_consumes _ _ st) Hst1)
    as (n1 & _ & Hn1 & _).
  apply bind_ext_ok; [apply get_next_line_from; lia |]. intros line' st2 Hst2.
  destruct (post_ok _ _ _ _ _ (get_next_line_consumes lines2 st1) Hst2)
    as (n2 & _ & Hn2 & _).
  apply IH. lia.
Qed.

End SameLinesFrom.

(** A call of [_map_reader] depends on the lines from its counter on
    only. *)
Lemma map_reader_from lines1 lines2 c fuel :
  (forall i, c <= i -> trimmed <$> lines1 !! i = trimmed <$> lines2 !! i) ->
  forall st, c <= counter st ->
    _map_reader lines1 fuel st = _map_reader lines2 fuel st.
Proof.
  intros Hsame. induction fuel as [|fuel IH]; intros st Hc; [reflexivity |].
  rewrite !map_reader_unfold.
  apply bind_ext_ok; [now apply (get_next_line_from _ _ c) |]. intros line st1 Hst1.
  destruct (post_ok _ _ _ _ _ (get_next_line_consumes lines2 st) Hst1)
    as (n1 & _ & Hn1 & _).
  destruct (negb _).
  - apply (seq_loop_from _ _ c); [exact Hsame | exact IH | apply map_reader_consumes | lia].
  - apply (map_loop_from _ _ c); [exact Hsame | exact IH | apply map_reader_consumes | lia].
Qed.

Lemma inert_char_plain c : inert_char c = true -> plain_char c = true.
Proof. unfold inert_char. now rewrite andb_true_iff. Qed.

Lemma prep_step_inert p ch :
  inert_char ch = true ->
  prep_step p ch = mkPrep (extended_map p +:+ str1 ch) (indents p) (in_quote p).
Proof.
  unfold inert_char, plain_char, prep_step.
  rewrite andb_true_iff, !negb_true_iff, !orb_false_iff.
  intros [[[[-> ->] ->] _] ->]. reflexivity.
Qed.

Lemma prep_run_inert s : forall p,
  all_chars inert_char s = true ->
  prep_run p s = mkPrep (extended_map p +:+ s) (indents p) (in_quote p).
Proof.
  induction s as [|ch s IH]; intros p Hs.
  - change (prep_run p EmptyString) with p. rewrite append_nil_right. now destruct p.
  - simpl in Hs. apply andb_true_iff in Hs as [Hch Hs].
    rewrite prep_run_cons, (prep_step_inert _ _ Hch), (IH _ Hs). simpl.
    now rewrite append_assoc_str.
Qed.

(** Text already written stays in front of what the scan adds. *)
Lemma prep_step_prefix pre p ch :
  prep_step (mkPrep (pre +:+ extended_map p) (indents p) (in_quote p)) ch =
  mkPrep (pre +:+ extended_map (prep_step p ch)) (indents (prep_step p ch))
    (in_quote (prep_step p ch)).
Proof.
  unfold prep_step. simpl.
  destruct (Ascii.eqb ch ch_lbrace), (Ascii.eqb ch ch_comma), (Ascii.eqb ch ch_rbrace);
    simpl; now rewrite ?append_assoc_str.
Qed.

Lemma prep_run_prefix pre s : forall p,
  prep_run (mkPrep (pre +:+ extended_map p) (indents p) (in_quote p)) s =
  mkPrep (pre +:+ extended_map (prep_run p s)) (indents (prep_run p s))
    (in_quote (prep_run p s)).
Proof.
  induction s as [|ch s IH]; intros p; [reflexivity |].
  now rewrite !prep_run_cons, prep_step_prefix, IH.
Qed.

Lemma split_prefix sep pre s :
  Py.contains sep pre = false ->
  Py.split sep (pre +:+ s) =
    (pre +:+ hd EmptyString (Py.split sep s)) :: tl (Py.split sep s).
Proof.
  induction pre as [|a pre IH]; intros Hpre.
  - change (EmptyString +:+ s) with s. pose proof (split_not_nil sep s).
    destruct (Py.split sep s); [congruence | reflexivity].
  - simpl in Hpre. apply orb_false_iff in Hpre as [Ha Hpre].
    rewrite append_cons. simpl Py.split. rewrite Ha, (IH Hpre). reflexivity.
Qed.

(** X6 — Text in front of the structure, such as [return ] before the
    first brace, is of no effect: a prefix without brace, comma, newline
    and quote only lengthens line 0, which [Loader] never reads. *)
Theorem leading_text_ignored prefix data :
  all_chars inert_char prefix = true ->
  tl (_raw_map_to_list (prefix +:+ data)) = tl (_raw_map_to_list data) /\
  Loader (prefix +:+ data) = Loader data.
Proof.
  intros Hprefix.
  assert (Hlines : _raw_map_to_list (prefix +:+ data) =
            (prefix +:+ hd EmptyString (_raw_map_to_list data))
              :: tl (_raw_map_to_list data)).
  { unfold _raw_map_to_list, extended_text.
    rewrite prep_run_app, (prep_run_inert _ _ Hprefix).
    replace (mkPrep (extended_map prep_init +:+ prefix) (indents prep_init)
               (in_quote prep_init))
      with (mkPrep (prefix +:+ extended_map prep_init) (indents prep_init)
              (in_quote prep_init))
      by (simpl extended_map; now rewrite append_nil_right).
    rewrite prep_run_prefix. simpl extended_map.
    apply split_prefix, plain_no_newline.
    eapply all_chars_mono; [apply inert_char_plain | exact Hprefix]. }
  split; [now rewrite Hlines |].
  unfold Loader. rewrite Hlines.
  pose proof (split_not_nil ch_newline (extended_text data)) as Hne.
  fold (_raw_map_to_list data) in Hne.
  destruct (_raw_map_to_list data) as [|l0 tail] eqn:E; [congruence |].
  simpl hd. simpl tl. simpl length.
  apply (map_reader_from _ _ 1); [| simpl; lia].
  intros [|i] Hi; [lia | reflexivity].
Qed.

Lemma leading_text_ignored_witness :
  tl (_raw_map_to_list ("return " +:+ "{a=1,b={2,3}}")) =
    tl (_raw_map_to_list "{a=1,b={2,3}}") /\
  Loader ("return " +:+ "{a=1,b={2,3}}") = Loader "{a=1,b={2,3}}".
Proof. exact (leading_text_ignored "return " "{a=1,b={2,3}}" eq_refl). Defined.

(** ** What a unit returns *)

Lemma seq_loop_returns_list parsed_map rec fuel : forall line return_data next_element st,
  post (seq_loop parsed_map rec fuel line return_data next_element) st
    (fun v _ => exists items, v = VList items).
Proof.
  induction fuel as [|fuel IH]; intros line return_data next_element st.
  - now apply post_raise.
  - rewrite seq_loop_unfold. destruct (Py.contains ch_rbrace line).
    { apply post_ret. now exists return_data. }
    apply post_bind, post_intro. intros [rd ne] st1 _.
    apply post_bind, post_intro. intros line' st2 _.
    destruct (String.eqb line' EmptyString).
    + apply post_bind, post_print, post_ret. now exists [].
    + apply IH.
Qed.

Lemma map_loop_returns_dict parsed_map rec fuel : forall line return_data st,
  post (map_loop parsed_map rec fuel line return_data) st
    (fun v _ => exists entries, v = VDict entries).
Proof.
  induction fuel as [|fuel IH]; intros line return_data st.
  - now apply post_raise.
  - rewrite map_loop_unfold. destruct (Py.contains ch_rbrace line).
    { apply post_ret. now exists return_data. }
    apply post_bind, post_intro. intros rd st1 _.
    apply post_bind, post_intro. intros line' st2 _. apply IH.
Qed.

(** X7 — A unit is a list or a dict, never a scalar, and its first line
    alone decides which: a dict when that line holds an [=], a list
    otherwise, whatever the later lines look like. *)
Theorem unit_kind_from_first_line parsed_map fuel st v st' :
  _map_reader parsed_map fuel st = Ok (v, st') ->
  exists raw, parsed_map !! counter st = Some raw /\
    if Py.contains ch_equals (trimmed raw)
    then exists entries, v = VDict entries
    else exists items, v = VList items.
Proof.
  destruct fuel as [|fuel]; [discriminate |].
  rewrite map_reader_unfold. unfold bind at 1, get_next_line.
  destruct (parsed_map !! counter st) as [raw|]; [| discriminate].
  intros Hrun. exists raw. split; [reflexivity |].
  destruct (Py.contains ch_equals (trimmed raw)); simpl negb in Hrun; cbv iota in Hrun.
  - exact (post_ok _ _ _ _ _ (map_loop_returns_dict _ _ _ _ _ _) Hrun).
  - exact (post_ok _ _ _ _ _ (seq_loop_returns_list _ _ _ _ _ _ _) Hrun).
Qed.

Lemma unit_kind_from_first_line_witness :
  exists raw, _raw_map_to_list ("{1," +:+ quoted "a=2" +:+ "}") !! 1 = Some raw /\
    if Py.contains ch_equals (trimmed raw)
    then exists entries, VList [VInt 1; VStr (quoted "a=2")] = VDict entries
    else exists items, VList [VInt 1; VStr (quoted "a=2")] = VList items.
Proof.
  exact (unit_kind_from_first_line (_raw_map_to_list ("{1," +:+ quoted "a=2" +:+ "}")) 5
           (mkState 1 [] []) (VList [VInt 1; VStr (quoted "a=2")])
           (mkState 4 [1; 2; 3] []) eq_refl).
Defined.

(** ** Units without nesting *)

Lemma seq_loop_flat rec closing post rest : forall vs pre line v return_data
    next_element st fuel,
  counter st = length pre ->
  Py.contains ch_lbrace line = false ->
  Py.contains ch_rbrace line = false ->
  change_data_type line = Some v ->
  Forall2 (fun raw w => list_item raw w /\ trimmed raw <> EmptyString) rest vs ->
  Py.contains ch_rbrace (trimmed closing) = true ->
  length rest + 1 < fuel ->
  seq_loop (pre ++ rest ++ closing :: post) rec fuel line return_data next_element st =
    Ok (VList (return_data ++ v :: vs),
        mkState (counter st + length rest + 1)
          (reads st ++ seq (counter st) (length rest + 1)) (stdout st)).
Proof.
  induction rest as [|r rest IH];
    intros vs pre line v return_data next_element st fuel Hc Hlb Hrb Hv Hrest
      Hclose Hfuel;
    (destruct fuel as [|fuel]; [simpl in Hfuel; lia |]);
    rewrite seq_loop_unfold, Hrb; unfold bind at 1;
    rewrite (seq_item_scalar _ _ _ _ _ _ Hlb Hv); unfold bind at 1, get_next_line.
  - apply Forall2_nil_inv_l in Hrest as ->.
    assert (Hraw : (pre ++ [] ++ closing :: post) !! counter st = Some closing)
      by (rewrite Hc; now apply list_lookup_middle).
    rewrite Hraw.
    assert (Hne : String.eqb (trimmed closing) EmptyString = false).
    { destruct (String.eqb_spec (trimmed closing) EmptyString) as [E|]; [| reflexivity].
      now rewrite E in Hclose. }
    rewrite Hne. destruct fuel as [|fuel]; [simpl in Hfuel; lia |].
    rewrite seq_loop_unfold, Hclose. unfold ret. simpl.
    do 2 f_equal. f_equal; lia.
  - apply Forall2_cons_inv_l in Hrest as (w & vs' & [(Hlb' & Hrb' & Hw) Hne] & Hrest & ->).
    assert (Hraw : (pre ++ (r :: rest) ++ closing :: post) !! counter st = Some r)
      by (rewrite Hc; now apply list_lookup_middle).
    rewrite Hraw. apply String.eqb_neq in Hne. rewrite Hne.
    change (pre ++ (r :: rest) ++ closing :: post)
      with (pre ++ [r] ++ rest ++ closing :: post).
    rewrite (app_assoc pre [r]).
    rewrite (IH vs' (pre ++ [r]) (trimmed r) w); simpl;
      [| rewrite length_app; simpl; lia | assumption .. | simpl in Hfuel; lia].
    rewrite <- !app_assoc. simpl. do 2 f_equal. f_equal; lia.
Qed.

(** X8 — A list unit without nesting: the first line holds no [=],
    every line up to the one with the closing brace is a non-empty scalar
    line that coerces.  The unit returns the coerced values in the order of
    the lines, prints nothing, and leaves the counter just past the
    closing-brace line.  (Only the first line may be empty.) *)
Theorem flat_list_unit pre first rest closing post fuel st v vs :
  counter st = length pre ->
  Py.contains ch_equals (trimmed first) = false ->
  list_item first v ->
  Forall2 (fun raw w => list_item raw w /\ trimmed raw <> EmptyString) rest vs ->
  Py.contains ch_rbrace (trimmed closing) = true ->
  length rest + 1 < fuel ->
  _map_reader (pre ++ first :: rest ++ closing :: post) (S fuel) st =
    Ok (VList (v :: vs),
        mkState (counter st + length rest + 2)
          (reads st ++ seq (counter st) (length rest + 2)) (stdout st)).
Proof.
  intros Hc Heq (Hlb & Hrb & Hv) Hrest Hclose Hfuel.
  rewrite map_reader_unfold. unfold bind at 1, get_next_line.
  assert (Hraw : (pre ++ first :: rest ++ closing :: post) !! counter st = Some first)
    by (rewrite Hc; now apply list_lookup_middle).
  rewrite Hraw, Heq. change (negb false) with true. cbv iota.
  change (pre ++ first :: rest ++ closing :: post)
    with (pre ++ [first] ++ rest ++ closing :: post).
  rewrite (app_assoc pre [first]).
  rewrite (seq_loop_flat _ closing post rest vs (pre ++ [first]) (trimmed first) v);
    simpl; [| rewrite length_app; simpl; lia | assumption ..].
  replace (counter st + length rest + 2) with (S (counter st + length rest + 1))
    by lia.
  replace (length rest + 2) with (S (length rest + 1)) by lia.
  now rewrite <- !app_assoc.
Qed.

Lemma flat_list_unit_witness :
  _map_reader (["{"] ++ "1," :: ["2.5,"; quoted "x"] ++ "}" :: []) 5 init_state =
    Ok (VList (VInt 1 :: [VFloat (S754_finite false 5629499534213120 (-51));
                          VStr (quoted "x")]),
        mkState (1 + 2 + 2) ([] ++ seq 1 (2 + 2)) []).
Proof.
  apply (flat_list_unit ["{"] "1," ["2.5,"; quoted "x"] "}" [] 4 init_state).
  - reflexivity.
  - reflexivity.
  - repeat split.
  - repeat constructor; discriminate.
  - reflexivity.
  - simpl. lia.
Defined.

Lemma map_item_scalar rec line kv return_data st :
  dict_line line kv ->
  map_item rec line return_data st = Ok (<[kv.1 := kv.2]> return_data, st).
Proof.
  intros (_ & Heq & -> & Hnest & Hv). unfold map_item, bind, or_value_error, ret.
  now rewrite Heq, Hnest, Hv.
Qed.

Lemma map_loop_flat rec closing post rest : forall kvs pre line kv return_data st fuel,
  counter st = length pre ->
  dict_line line kv ->
  Forall2 dict_item rest kvs ->
  Py.contains ch_rbrace (trimmed closing) = true ->
  length rest + 1 < fuel ->
  map_loop (pre ++ rest ++ closing :: post) rec fuel line return_data st =
    Ok (VDict (store_all return_data (kv :: kvs)),
        mkState (counter st + length rest + 1)
          (reads st ++ seq (counter st) (length rest + 1)) (stdout st)).
Proof.
  induction rest as [|r rest IH];
    intros kvs pre line kv return_data st fuel Hc Hline Hrest Hclose Hfuel;
    (destruct fuel as [|fuel]; [simpl in Hfuel; lia |]);
    rewrite map_loop_unfold, (proj1 Hline); unfold bind at 1;
    rewrite (map_item_scalar _ _ _ _ _ Hline); unfold bind at 1, get_next_line.
  - apply Forall2_nil_inv_l in Hrest as ->.
    assert (Hraw : (pre ++ [] ++ closing :: post) !! counter st = Some closing)
      by (rewrite Hc; now apply list_lookup_middle).
    rewrite Hraw. destruct fuel as [|fuel]; [simpl in Hfuel; lia |].
    rewrite map_loop_unfold, Hclose. unfold ret. simpl.
    do 2 f_equal. f_equal; lia.
  - apply Forall2_cons_inv_l in Hrest as (kv' & kvs' & Hr & Hrest & ->).
    assert (Hraw : (pre ++ (r :: rest) ++ closing :: post) !! counter st = Some r)
      by (rewrite Hc; now apply list_lookup_middle).
    rewrite Hraw.
    change (pre ++ (r :: rest) ++ closing :: post)
      with (pre ++ [r] ++ rest ++ closing :: post).
    rewrite (app_assoc pre [r]).
    rewrite (IH kvs' (pre ++ [r]) (trimmed r) kv'); simpl;
      [| rewrite length_app; simpl; lia | assumption .. | simpl in Hfuel; lia].
    rewrite <- !app_assoc. simpl. do 2 f_equal. f_equal; lia.
Qed.

Lemma store_all_absent kvs : forall d k,
  k ∉ kvs.*1 -> store_all d kvs !! k = d !! k.
Proof.
  induction kvs as [|[k' v'] kvs IH]; intros d k Hk; [reflexivity |].
  simpl in Hk. apply not_elem_of_cons in Hk as [Hne Hk].
  unfold store_all in *. simpl. rewrite (IH _ _ Hk).
  now apply lookup_insert_ne.
Qed.

Lemma store_all_last kvs1 k v kvs2 d :
  k ∉ kvs2.*1 -> store_all d (kvs1 ++ (k, v) :: kvs2) !! k = Some v.
Proof.
  intros Hk. unfold store_all. rewrite foldl_app. simpl.
  fold (store_all (<[k:=v]> (foldl (fun d kv => <[kv.1:=kv.2]> d) d kvs1)) kvs2).
  rewrite (store_all_absent _ _ _ Hk). apply lookup_insert_eq.
Qed.

(** X9 — A dict unit without nesting: every line up to the one with the
    closing brace is an entry [key=data] whose data is a scalar that
    coerces.  The unit returns the dict of the stores in the order of the
    lines, prints nothing and leaves the counter just past the
    closing-brace line.  A key written several times keeps the value of its
    last entry; a key of no entry is absent. *)
Theorem flat_dict_unit pre first rest closing post fuel st kv kvs :
  counter st = length pre ->
  dict_item first kv ->
  Forall2 dict_item rest kvs ->
  Py.contains ch_rbrace (trimmed closing) = true ->
  length rest + 1 < fuel ->
  _map_reader (pre ++ first :: rest ++ closing :: post) (S fuel) st =
    Ok (VDict (store_all ∅ (kv :: kvs)),
        mkState (counter st + length rest + 2)
          (reads st ++ seq (counter st) (length rest + 2)) (stdout st)) /\
  (forall kvs1 k v kvs2,
     kv :: kvs = kvs1 ++ (k, v) :: kvs2 -> k ∉ kvs2.*1 ->
     store_all ∅ (kv :: kvs) !! k = Some v) /\
  (forall k, k ∉ (kv :: kvs).*1 -> store_all ∅ (kv :: kvs) !! k = None).
Proof.
  intros Hc Hfirst Hrest Hclose Hfuel. split; [| split].
  - rewrite map_reader_unfold. unfold bind at 1, get_next_line.
    assert (Hraw : (pre ++ first :: rest ++ closing :: post) !! counter st = Some first)
      by (rewrite Hc; now apply list_lookup_middle).
    rewrite Hraw, (proj1 (proj2 Hfirst)). change (negb true) with false. cbv iota.
    change (pre ++ first :: rest ++ closing :: post)
      with (pre ++ [first] ++ rest ++ closing :: post).
    rewrite (app_assoc pre [first]).
    rewrite (map_loop_flat _ closing post rest kvs (pre ++ [first]) (trimmed first) kv);
      simpl; [| rewrite length_app; simpl; lia | assumption ..].
    replace (counter st + length rest + 2) with (S (counter st + length rest + 1))
      by lia.
    replace (length rest + 2) with (S (length rest + 1)) by lia.
    now rewrite <- !app_assoc.
  - intros kvs1 k v kvs2 -> Hk. now apply store_all_last.
  - intros k Hk. now rewrite store_all_absent.
Qed.

Lemma flat_dict_unit_witness :
  _map_reader (["{"] ++ "a=1," :: ["b=2,"; "a=3"] ++ "}" :: []) 5 init_state =
    Ok (VDict (store_all ∅ (("a", VInt 1) :: [("b", VInt 2); ("a", VInt 3)])),
        mkState (1 + 2 + 2) ([] ++ seq 1 (2 + 2)) []) /\
  store_all ∅ (("a", VInt 1) :: [("b", VInt 2); ("a", VInt 3)]) !! "a" = Some (VInt 3).
Proof.
  destruct (flat_dict_unit ["{"] "a=1," ["b=2,"; "a=3"] "}" [] 4 init_state
              ("a", VInt 1) [("b", VInt 2); ("a", VInt 3)]) as (Hrun & Hlast & _).
  - reflexivity.
  - repeat split.
  - repeat constructor.
  - reflexivity.
  - simpl. lia.
  - split; [exact Hrun |].
    apply (Hlast [("a", VInt 1); ("b", VInt 2)] "a" (VInt 3) []); [reflexivity |].
    simpl. apply not_elem_of_nil.
Defined.

(** ** The first [=] of a dict line *)

Lemma contains_app c a b :
  Py.contains c (a +:+ b) = Py.contains c a || Py.contains c b.
Proof.
  induction a as [|x a IH]; [reflexivity |].
  rewrite append_cons. simpl. now rewrite IH, orb_assoc.
Qed.

Lemma split_at_first sep key rest :
  Py.contains sep key = false ->
  Py.split sep (key +:+ String sep rest) = key :: Py.split sep rest.
Proof.
  induction key as [|a key IH]; intros Hkey.
  - change (EmptyString +:+ String sep rest) with (String sep rest).
    simpl. now rewrite Ascii.eqb_refl.
  - simpl in Hkey. apply orb_false_iff in Hkey as [Ha Hkey].
    rewrite append_cons. simpl Py.split. now rewrite Ha, (IH Hkey).
Qed.

(** X10 — A dict line is cut at its first [=] only: the key is the text
    before it, the data all the text after it, later [=] included.  The
    data [{] stores the nested unit under the key, any other data its
    coerced value, and a data that does not coerce raises. *)
Theorem dict_line_cut_at_first_equals rec key rest return_data st :
  Py.contains ch_equals key = false ->
  map_item rec (key +:+ String ch_equals rest) return_data st =
    (let! data :=
       (if String.eqb rest (str1 ch_lbrace) then rec
        else or_value_error (change_data_type rest)) in
     ret (<[key := data]> return_data)) st.
Proof.
  intros Hkey. unfold map_item.
  rewrite contains_app, Hkey.
  change (Py.contains ch_equals (String ch_equals rest)) with true.
  simpl orb. cbv iota zeta. rewrite (split_at_first _ _ _ Hkey). cbn [hd tl].
  now rewrite join_split.
Qed.

Lemma dict_line_cut_at_first_equals_witness :
  map_item (ret (VList [])) ("k" +:+ String ch_equals (quoted "a=b=c")) ∅ init_state =
    Ok ({[ "k" := VStr (quoted "a=b=c") ]}, init_state).
Proof.
  exact (dict_line_cut_at_first_equals (ret (VList [])) "k" (quoted "a=b=c") ∅
           init_state eq_refl).
Defined.

(** ** Bracketed indices *)

Lemma all_chars_app p a b : all_chars p (a +:+ b) = all_chars p a && all_chars p b.
Proof.
  induction a as [|x a IH]; [reflexivity |].
  rewrite append_cons. simpl. now rewrite IH, andb_assoc.
Qed.

Lemma drop_last_snoc s c : Py.drop_last (s +:+ str1 c) = s.
Proof.
  induction s as [|a s IH]; [reflexivity |].
  rewrite append_cons. simpl. rewrite IH.
  destruct s; reflexivity.
Qed.

Lemma index_char_not_space c : index_char c = true -> negb (Py.isspace c) = true.
Proof.
  destruct c as [[|] [|] [|] [|] [|] [|] [|] [|]]; vm_compute; congruence.
Qed.

Lemma index_key_chars n : all_chars index_char ("[" +:+ Py.str_int n +:+ "]") = true.
Proof.
  change ("[" +:+ Py.str_int n +:+ "]") with (String "[" (Py.str_int n +:+ "]")).
  cbn [all_chars]. rewrite all_chars_app.
  apply andb_true_iff. split; [reflexivity |].
  apply andb_true_iff. split; [| reflexivity].
  apply (all_chars_mono sign_or_digit); [| apply str_int_chars].
  intros c Hc. unfold index_char. now rewrite Hc.
Qed.

(** [int] reads the index back from between its brackets. *)
Lemma index_parsed n :
  Py.int (Py.slice_1_m1
            (Py.strip (hd EmptyString
               (Py.split ch_equals (("[" +:+ Py.str_int n +:+ "]") +:+ "={"))))) = Some n.
Proof.
  pose proof (index_key_chars n) as Hchars.
  rewrite split_at_first
    by (apply (all_chars_contains index_char); [exact Hchars | reflexivity]).
  cbn [hd]. unfold Py.strip.
  rewrite lstrip_by_none, rstrip_by_none
    by (apply (all_chars_mono index_char); [apply index_char_not_space | exact Hchars]).
  change ("[" +:+ Py.str_int n +:+ "]") with (String "[" (Py.str_int n +:+ str1 "]")).
  cbn [Py.slice_1_m1]. rewrite drop_last_snoc. apply int_str_int.
Qed.

Lemma seq_item_with_index rec line return_data next_element st n :
  Py.contains ch_lbrace line = true ->
  Py.contains ch_equals line = true ->
  Py.int (Py.slice_1_m1 (Py.strip (hd EmptyString (Py.split ch_equals line)))) = Some n ->
  seq_item rec line return_data next_element st =
    (let! v := rec in
     ret (return_data ++ replicate (Z.to_nat (n - next_element)) (VStr "") ++ [v],
          (n + 1)%Z)) st.
Proof.
  intros Hbrace Heq Hint. unfold seq_item. rewrite Hbrace, Heq.
  unfold bind, ret, or_value_error. rewrite Hint.
  destruct (rec st) as [[v st']| | |]; try reflexivity.
  now rewrite <- app_assoc.
Qed.

(** X11 — The key is kept as the position: when [next_element] is the
    number of elements gathered so far and the line [[n]={] carries an
    index [n] not below it, the nested value lands at index [n] of the
    list, after the elements already there and empty strings in between,
    and [next_element] is again the length of the list. *)
Theorem indexed_item_lands_at_its_index rec n return_data st v st' :
  rec st = Ok (v, st') ->
  (Z.of_nat (length return_data) <= n)%Z ->
  exists rd,
    seq_item rec (("[" +:+ Py.str_int n +:+ "]") +:+ "={") return_data
      (Z.of_nat (length return_data)) st = Ok ((rd, (n + 1)%Z), st') /\
    rd !! Z.to_nat n = Some v /\
    Z.of_nat (length rd) = (n + 1)%Z /\
    take (length return_data) rd = return_data /\
    forall i, length return_data <= i < Z.to_nat n -> rd !! i = Some (VStr "").
Proof.
  intros Hrec Hn.
  set (pad := Z.to_nat (n - Z.of_nat (length return_data))).
  assert (Hpad : length return_data + pad = Z.to_nat n) by (unfold pad; lia).
  exists (return_data ++ replicate pad (VStr "") ++ [v]). split; [| split; [| split; [| split]]].
  - rewrite (seq_item_with_index _ _ _ _ _ n);
      [| rewrite contains_app; apply orb_true_r
       | rewrite contains_app; apply orb_true_r
       | apply index_parsed].
    unfold bind. now rewrite Hrec.
  - rewrite app_assoc. apply list_lookup_middle.
    rewrite length_app, length_replicate. lia.
  - rewrite !length_app, length_replicate. simpl. lia.
  - now rewrite take_app_length.
  - intros i Hi. rewrite lookup_app_r by lia.
    rewrite lookup_app_l by (rewrite length_replicate; lia).
    apply lookup_replicate_2. lia.
Qed.

Lemma indexed_item_lands_at_its_index_witness :
  exists rd,
    seq_item (ret (VList [VInt 5])) (("[" +:+ Py.str_int 4 +:+ "]") +:+ "={")
      [VInt 1; VInt 2] (Z.of_nat (length [VInt 1; VInt 2])) init_state =
      Ok ((rd, (4 + 1)%Z), init_state) /\
    rd !! Z.to_nat 4 = Some (VList [VInt 5]) /\
    Z.of_nat (length rd) = (4 + 1)%Z /\
    take (length [VInt 1; VInt 2]) rd = [VInt 1; VInt 2] /\
    forall i, length [VInt 1; VInt 2] <= i < Z.to_nat 4 -> rd !! i = Some (VStr "").
Proof.
  apply (indexed_item_lands_at_its_index (ret (VList [VInt 5])) 4 [VInt 1; VInt 2]
           init_state (VList [VInt 5]) init_state eq_refl).
  simpl. lia.
Defined.

(** ** Tokens that are not numbers *)

Lemma int_digits_chars k : forall s acc n,
  String.length s <= k ->
  Py.int_digits acc s = Some n ->
  all_chars (fun c => Py.is_digit c || Ascii.eqb c "_") s = true.
Proof.
  induction k as [|k IH]; intros [|c r] acc n Hlen Hn; try reflexivity;
    simpl in Hlen; [lia |].
  simpl in Hn. cbn [all_chars]. destruct (Py.is_digit c) eqn:Hc.
  - simpl. eapply IH; [| exact Hn]. lia.
  - destruct (Ascii.eqb c "_") eqn:Hu; [| discriminate]. simpl.
    destruct r as [|d r']; [discriminate |].
    destruct (Py.is_digit d) eqn:Hd; [| discriminate].
    cbn [all_chars]. rewrite Hd. simpl.
    destruct k as [|k]; [simpl in Hlen; lia |].
    assert (Hk : forall s acc n, String.length s <= k ->
              Py.int_digits acc s = Some n ->
              all_chars (fun c => Py.is_digit c || Ascii.eqb c "_") s = true).
    { intros s acc' n' Hs. apply IH. lia. }
    eapply Hk; [| exact Hn]. simpl in Hlen. lia.
Qed.

Lemma unsigned_int_chars s n :
  Py.unsigned_int s = Some n ->
  all_chars (fun c => Py.is_digit c || Ascii.eqb c "_") s = true.
Proof.
  destruct s as [|d r]; [discriminate |]. simpl.
  destruct (Py.is_digit d); [| discriminate]. intros Hn. simpl.
  eapply (int_digits_chars (String.length r)); [| exact Hn]. lia.
Qed.

Lemma lstrip_by_chars p q s :
  all_chars q (Py.lstrip_by p s) = true ->
  all_chars (fun c => q c || p c) s = true.
Proof.
  induction s as [|a r IH]; [reflexivity |]. cbn [Py.lstrip_by].
  destruct (p a) eqn:Ha.
  - intros H. cbn [all_chars]. rewrite Ha, orb_true_r. now apply IH.
  - intros H. eapply all_chars_mono; [| exact H].
    intros c Hc. simpl. now rewrite Hc.
Qed.

Lemma rstrip_by_chars p q s :
  all_chars q (Py.rstrip_by p s) = true ->
  all_chars (fun c => q c || p c) s = true.
Proof.
  induction s as [|a r IH]; [reflexivity |]. cbn [Py.rstrip_by all_chars].
  destruct (Py.rstrip_by p r) as [|b r'].
  - rewrite (IH eq_refl), andb_true_r.
    destruct (p a); [intros _; apply orb_true_r |].
    cbn [str1 all_chars]. rewrite andb_true_r. now intros ->.
  - intros H. change (q a && all_chars q (String b r') = true) in H.
    apply andb_true_iff in H as [Ha H]. now rewrite Ha, (IH H).
Qed.

(** [int] accepts digits, underscores, signs and blanks only. *)
Lemma int_chars s n : Py.int s = Some n -> all_chars int_char s = true.
Proof.
  intros Hint.
  assert (Hstripped : all_chars
            (fun c => Py.is_digit c || Ascii.eqb c "_" || Ascii.eqb c "+"
                      || Ascii.eqb c "-") (Py.num_strip s) = true).
  { unfold Py.int in Hint. destruct (Py.num_strip s) as [|c r]; [discriminate |].
    assert (Hmono : forall t m, Py.unsigned_int t = Some m ->
              all_chars (fun c => Py.is_digit c || Ascii.eqb c "_" || Ascii.eqb c "+"
                                  || Ascii.eqb c "-") t = true).
    { intros t m Ht. apply unsigned_int_chars in Ht.
      eapply all_chars_mono; [| exact Ht]. intros x Hx. simpl in Hx.
      now rewrite Hx. }
    destruct (Ascii.eqb c "-") eqn:Hminus.
    - cbn [all_chars]. rewrite Hminus, orb_true_r. simpl.
      destruct (Py.unsigned_int r) as [m|] eqn:Hr; [| discriminate].
      now apply (Hmono r m).
    - destruct (Ascii.eqb c "+") eqn:Hplus.
      + cbn [all_chars]. rewrite Hplus, orb_true_r. simpl.
        now apply (Hmono r n).
      + now apply (Hmono (String c r) n). }
  unfold Py.num_strip in Hstripped.
  apply rstrip_by_chars, lstrip_by_chars in Hstripped.
  eapply all_chars_mono; [| exact Hstripped].
  intros c Hc. unfold int_char. simpl in Hc.
  destruct (Py.num_space c); [apply orb_true_r |].
  rewrite !orb_false_r in Hc. rewrite orb_false_r. exact Hc.
Qed.

(** X12 — A token without quote and without dot, other than [true] and
    [false], that holds a character which is neither a digit, an
    underscore, a sign nor a blank, is not coerced: [int] raises
    [ValueError] on it.  Bare words such as [nil] or [True] end the load. *)
Theorem bare_word_raises token :
  Py.contains ch_quote token = false ->
  Py.contains ch_dot token = false ->
  String.eqb token "true" = false ->
  String.eqb token "false" = false ->
  all_chars int_char token = false ->
  change_data_type token = None.
Proof.
  intros Hquote Hdot Htrue Hfalse Hchars. unfold change_data_type.
  destruct (String.eqb_spec token EmptyString) as [->|_]; [discriminate |].
  rewrite Htrue, Hfalse, Hquote, Hdot.
  destruct (Py.int token) as [n|] eqn:Hint; [| reflexivity].
  apply int_chars in Hint. congruence.
Qed.

Lemma bare_word_raises_witness : change_data_type "nil" = None.
Proof.
  exact (bare_word_raises "nil" eq_refl eq_refl eq_refl eq_refl eq_refl).
Defined.

(** * String forms coerced again *)

(** ** [float] reads back what [str] prints *)

Lemma spec_float_eqb_eq x y : Py.spec_float_eqb x y = true -> x = y.
Proof.
  destruct x as [s|s| |s m e], y as [t|t| |t n f]; simpl; try discriminate;
    try reflexivity.
  - intros H. apply Bool.eqb_prop in H. now subst.
  - intros H. apply Bool.eqb_prop in H. now subst.
  - rewrite !andb_true_iff. intros [[Hs Hm] He].
    apply Bool.eqb_prop in Hs. apply Pos.eqb_eq in Hm. apply Z.eqb_eq in He.
    now subst.
Qed.

Lemma first_read_back_sound x texts t :
  Py.first_read_back x texts = Some t -> Py.float t = Some x /\ In t texts.
Proof.
  induction texts as [|u texts IH]; [discriminate |]. simpl.
  destruct (Py.float u) as [y|] eqn:Hu.
  - destruct (Py.spec_float_eqb x y) eqn:Hxy.
    + intros [= <-]. apply spec_float_eqb_eq in Hxy. subst y. auto.
    + intros H. destruct (IH H). auto.
  - intros H. destruct (IH H). auto.
Qed.

Lemma str_take_chars p n : forall s,
  all_chars p s = true -> all_chars p (Py.str_take n s) = true.
Proof.
  induction n as [|n IH]; intros [|c s]; try reflexivity. simpl.
  rewrite !andb_true_iff. intros [Hc Hs]. auto.
Qed.

Lemma str_drop_chars p n : forall s,
  all_chars p s = true -> all_chars p (Py.str_drop n s) = true.
Proof.
  induction n as [|n IH]; intros [|c s]; try (intros H; exact H). simpl.
  rewrite andb_true_iff. intros [_ Hs]. auto.
Qed.

Lemma repeat_char_chars p c n : p c = true -> all_chars p (Py.repeat_char c n) = true.
Proof.
  intros Hc. unfold Py.repeat_char.
  induction (Z.to_nat n) as [|k IH]; simpl; [reflexivity | now rewrite Hc].
Qed.

Lemma float_out_of_digit c : sign_or_digit c = true -> float_out_char c = true.
Proof.
  unfold sign_or_digit, float_out_char. rewrite !orb_true_iff. tauto.
Qed.

Lemma contains_app_l c a b : Py.contains c a = true -> Py.contains c (a +:+ b) = true.
Proof.
  induction a as [|x a IH]; [discriminate |].
  change (String x a +:+ b) with (String x (a +:+ b)). simpl.
  rewrite !orb_true_iff. intros [H|H]; auto.
Qed.

Lemma contains_app_r c a b : Py.contains c b = true -> Py.contains c (a +:+ b) = true.
Proof.
  intros H. induction a as [|x a IH]; [exact H |].
  change (String x a +:+ b) with (String x (a +:+ b)). simpl.
  now rewrite IH, orb_true_r.
Qed.

Lemma all_chars_append p a b :
  all_chars p a = true -> all_chars p b = true -> all_chars p (a +:+ b) = true.
Proof.
  intros Ha Hb. induction a as [|x a IH]; [exact Hb |].
  change (String x a +:+ b) with (String x (a +:+ b)). simpl in *.
  apply andb_true_iff in Ha as [Hx Ha]. now rewrite Hx, IH.
Qed.

Lemma all_chars_String p c s :
  p c = true -> all_chars p s = true -> all_chars p (String c s) = true.
Proof. simpl. now intros -> ->. Qed.

(** The laid-out text holds digits, a dot, [e] and signs only, and a dot
    or an [e] at least. *)
Lemma float_layout_chars ds decpt :
  all_chars float_out_char ds = true ->
  all_chars float_out_char (Py.float_layout ds decpt) = true /\
  (Py.contains ch_dot (Py.float_layout ds decpt) = true \/
   Py.contains "e" (Py.float_layout ds decpt) = true).
Proof.
  intros Hds. unfold Py.float_layout.
  assert (Hint : forall z, all_chars float_out_char (Py.str_int z) = true).
  { intros z. apply (all_chars_mono sign_or_digit);
      [apply float_out_of_digit | apply str_int_chars]. }
  destruct ((decpt <=? -4)%Z || (16 <? decpt)%Z).
  - split.
    + repeat apply all_chars_append; try apply Hint; try reflexivity.
      * now apply str_take_chars.
      * destruct (1 <? _)%Z; [| reflexivity].
        apply all_chars_String; [reflexivity | now apply str_drop_chars].
      * now destruct (_ <? 0)%Z.
      * now destruct (_ <? 10)%Z.
    + right. apply contains_app_r, contains_app_r, contains_app_l. reflexivity.
  - destruct (decpt <=? 0)%Z; [| destruct (_ <=? decpt)%Z].
    + split.
      * repeat apply all_chars_append; try reflexivity; [| exact Hds].
        now apply repeat_char_chars.
      * left. now apply contains_app_l.
    + split.
      * repeat apply all_chars_append; try reflexivity; [exact Hds |].
        now apply repeat_char_chars.
      * left. now apply contains_app_r, contains_app_r.
    + split.
      * apply all_chars_append; [now apply str_take_chars |].
        apply all_chars_String; [reflexivity | now apply str_drop_chars].
      * left. apply contains_app_r. apply orb_true_iff. now left.
Qed.

Lemma decimal_text_chars neg d scale :
  all_chars float_out_char (Py.decimal_text neg d scale) = true /\
  (Py.contains ch_dot (Py.decimal_text neg d scale) = true \/
   Py.contains "e" (Py.decimal_text neg d scale) = true).
Proof.
  unfold Py.decimal_text. destruct (Py.drop_zeros 20 d scale) as [d' scale'].
  destruct (float_layout_chars (Py.str_int d')
              (Z.of_nat (String.length (Py.str_int d')) + scale')) as [Hchars Hsome].
  { apply (all_chars_mono sign_or_digit);
      [apply float_out_of_digit | apply str_int_chars]. }
  split.
  - apply all_chars_append; [now destruct neg | exact Hchars].
  - destruct Hsome as [H|H]; [left | right]; now apply contains_app_r.
Qed.

Lemma texts_to_try_chars neg num den t :
  In t (Py.texts_to_try neg num den) ->
  all_chars float_out_char t = true /\
  (Py.contains ch_dot t = true \/ Py.contains "e" t = true).
Proof.
  unfold Py.texts_to_try. rewrite in_flat_map. intros (n & _ & Hin).
  apply in_map_iff in Hin as ([d scale] & <- & _). apply decimal_text_chars.
Qed.

(** Coercing a text of a number again: the number when the text holds a
    dot, an error from [int] when it holds none. *)
Lemma float_text_recoerced s x :
  Py.float s = Some x ->
  all_chars float_out_char s = true ->
  Py.contains ch_dot s = true \/ Py.contains "e" s = true ->
  if Py.contains ch_dot s then change_data_type s = Some (VFloat x)
  else change_data_type s = None.
Proof.
  intros Hfloat Hchars Hsome. unfold change_data_type.
  destruct (String.eqb_spec s EmptyString) as [->|_]; [discriminate |].
  rewrite !(all_chars_not_eq float_out_char s) by (exact Hchars || reflexivity).
  rewrite (all_chars_contains float_out_char ch_quote s) by (exact Hchars || reflexivity).
  destruct (Py.contains ch_dot s); [now rewrite Hfloat |].
  destruct Hsome as [|He]; [discriminate |].
  destruct (Py.int s) as [n|] eqn:Hint; [| reflexivity].
  apply int_chars in Hint.
  rewrite (all_chars_contains int_char "e" s) in He by (exact Hint || reflexivity).
  discriminate.
Qed.

Lemma str_float_recoerced x s :
  Py.str_float x = Some s ->
  if Py.contains ch_dot s then change_data_type s = Some (VFloat x)
  else change_data_type s = None.
Proof.
  destruct x as [sg|sg| |sg m e]; simpl.
  - destruct sg; intros [= <-]; vm_compute; reflexivity.
  - destruct sg; intros [= <-]; vm_compute; reflexivity.
  - intros [= <-]. vm_compute. reflexivity.
  - destruct (0 <=? e)%Z; intros H; apply first_read_back_sound in H as [Hfloat Hin];
      apply texts_to_try_chars in Hin as [Hchars Hsome];
      now apply float_text_recoerced.
Qed.

(** C6 (amended) — For a value returned by [change_data_type], coercing
    its string form again gives the same value when the value is a [str]
    (the empty one, or a text holding a quote) or an [int] (printed by
    [str]).  For a [bool] this holds for the dialect's tokens [true] and
    [false], while on the forms [True] and [False] printed by [str] the
    coercion raises [ValueError].  For a [float] whose text printed by
    [str] is [text], it holds exactly when [text] holds a dot, as [3.5]
    for 3.5; a text without a dot (for a finite number it holds an
    exponent, as [1e-05] and [1e+16]; for infinity it is [inf]) is handed
    to [int], and the coercion raises [ValueError].  Lists and dicts are
    never returned. *)
Theorem recoercion_of_string_forms token v :
  change_data_type token = Some v ->
  match v with
  | VStr s => change_data_type s = Some (VStr s)
  | VInt n => change_data_type (Py.str_int n) = Some (VInt n)
  | VBool b =>
      change_data_type (bool_token b) = Some (VBool b) /\
      change_data_type (Py.str_bool b) = None
  | VFloat f =>
      forall text,
        Py.str_float f = Some text ->
        if Py.contains ch_dot text then change_data_type text = Some (VFloat f)
        else change_data_type text = None
  | VList _ | VDict _ => False
  end.
Proof.
  unfold change_data_type at 1.
  destruct (String.eqb_spec token EmptyString) as [->|_]; [now intros [= <-] |].
  destruct (String.eqb token "true"); [intros [= <-]; split; reflexivity |].
  destruct (String.eqb token "false"); [intros [= <-]; split; reflexivity |].
  destruct (Py.contains ch_quote token) eqn:Hq.
  { intros [= <-]. unfold change_data_type.
    rewrite !(contains_not_eq ch_quote token) by (exact Hq || reflexivity).
    now rewrite Hq. }
  destruct (Py.contains ch_dot token).
  - destruct (Py.float token) as [f|]; [| discriminate]. intros [= <-].
    intros text. apply str_float_recoerced.
  - destruct (Py.int token) as [n|]; [| discriminate]. intros [= <-].
    apply change_data_type_str_int.
Qed.

Lemma recoercion_of_string_forms_witness :
  change_data_type "3.5" = Some (VFloat (S754_finite false 7881299347898368 (-51))) /\
  Py.str_float (S754_finite false 7881299347898368 (-51)) = Some "3.5" /\
  if Py.contains ch_dot "3.5"
  then change_data_type "3.5" = Some (VFloat (S754_finite false 7881299347898368 (-51)))
  else change_data_type "3.5" = None.
Proof.
  split; [reflexivity | split; [vm_compute; reflexivity |]].
  apply (recoercion_of_string_forms "3.5"
           (VFloat (S754_finite false 7881299347898368 (-51))) eq_refl "3.5").
  vm_compute. reflexivity.
Defined.

(** C6, as stated, fails for [True]: [str(True)] is [True], which holds
    no quote and no dot, so [int] is called on it and raises.  It fails for
    a [float] too: the token [0.00001] is read as the number that [str]
    prints as [1e-05], the token [1.e16] as the one printed as [1e+16], and
    the token [1.e999] as infinity, printed as [inf]; these texts hold no
    dot and are handed to [int] as well. *)
Lemma recoercion_fails_on_bool_and_inf :
  change_data_type "true" = Some (VBool true) /\
  Py.str_bool true = "True" /\
  change_data_type (Py.str_bool true) = None /\
  change_data_type "1.e999" = Some (VFloat (S754_infinity false)) /\
  Py.float "inf" = Some (S754_infinity false) /\
  change_data_type "inf" = None /\
  Py.str_float (S754_infinity false) = Some "inf" /\
  change_data_type "0.00001" = Some (VFloat (S754_finite false 5902958103587057 (-69))) /\
  Py.str_float (S754_finite false 5902958103587057 (-69)) = Some "1e-05" /\
  change_data_type "1e-05" = None /\
  change_data_type "1.e16" = Some (VFloat (S754_finite false 5000000000000000 1)) /\
  Py.str_float (S754_finite false 5000000000000000 1) = Some "1e+16" /\
  change_data_type "1e+16" = None.
Proof. repeat split; vm_compute; reflexivity. Qed.
